(** * MindMate: assessment session handling, verified against the sources

    The development embeds three pieces of the repository:

    - [Questionnaire]: the questionnaire-completion flag kept in the
      browser's [localStorage] (hooks/useQuestionnaireCheck);
    - [AssessmentAPI]: [deleteSession] of the [useAssessmentAPI] hook;
    - [Assessment]: the backend session handling given in the assessment fix
      plan ([get_session_state], [update_session],
      [validate_session_ownership], [process_message] with its
      module-completion handling, [_should_run_da], [_should_run_tpa]).

    Dictionaries are finite maps ([gmap]), Python integers are [Z], and code
    that raises is modelled with an explicit outcome type. *)

From Stdlib Require Import ZArith.
From stdpp Require Import base option list strings gmap fin_maps.

Local Open Scope string_scope.

(** ** The questionnaire flag in localStorage *)

Module Questionnaire.

(** The Web Storage object: string keys to string values.  [getItem]
    answers [null] (here [None]) for a key that is not stored. *)
Abbreviation Storage := (gmap string string).

Definition getItem (localStorage : Storage) (key : string) : option string :=
  localStorage !! key.

Definition setItem (localStorage : Storage) (key value : string) : Storage :=
  <[key := value]> localStorage.

Definition removeItem (localStorage : Storage) (key : string) : Storage :=
  delete key localStorage.

(** [localStorage.getItem('questionnaire_completed') === 'true'] *)
Definition isQuestionnaireCompleted (localStorage : Storage) : bool :=
  bool_decide (getItem localStorage "questionnaire_completed" = Some "true").

(** [localStorage.setItem('questionnaire_completed', 'true')] *)
Definition markQuestionnaireCompleted (localStorage : Storage) : Storage :=
  setItem localStorage "questionnaire_completed" "true".

(** [localStorage.removeItem('questionnaire_completed')] *)
Definition resetQuestionnaireStatus (localStorage : Storage) : Storage :=
  removeItem localStorage "questionnaire_completed".

(** The effect body of [useQuestionnaireCheck]: [Some redirectTo] when the
    hook navigates away, [None] when it does nothing. *)
Definition useQuestionnaireCheck (localStorage : Storage) (enabled : bool)
    (redirectTo : string) : option string :=
  if negb enabled then None
  else
    let questionnaireCompleted :=
      bool_decide (getItem localStorage "questionnaire_completed" = Some "true") in
    if negb questionnaireCompleted then Some redirectTo else None.

End Questionnaire.

(** ** The assessment API hook: deleteSession *)

Module AssessmentAPI.

(** JavaScript values, as far as the hook looks into them. *)
#[warnings="-register-all"]
Inductive JsValue :=
| JUndefined
| JNull
| JBool (b : bool)
| JNum (n : Z)
| JStr (s : string)
| JObj (fields : list (string * JsValue)).

(** Truthiness, as used by [||]. *)
Definition truthy (v : JsValue) : bool :=
  match v with
  | JUndefined | JNull => false
  | JBool b => b
  | JNum n => negb (n =? 0)%Z
  | JStr s => negb (String.eqb s "")
  | JObj _ => true
  end.

(** [a || b] *)
Definition js_or (a b : JsValue) : JsValue := if truthy a then a else b.

Fixpoint assoc (fields : list (string * JsValue)) (key : string) : JsValue :=
  match fields with
  | [] => JUndefined
  | (k, v) :: rest => if String.eqb k key then v else assoc rest key
  end.

(** [v?.key]: property access that yields [undefined] on [null] and
    [undefined], and on primitives that do not carry the property. *)
Definition opt_field (v : JsValue) (key : string) : JsValue :=
  match v with
  | JObj fields => assoc fields key
  | _ => JUndefined
  end.

(** What axios gives back: a response has a numeric status and a body. *)
Record HttpResponse := { status : Z; data : JsValue }.

(** An axios error: the response is missing when the request never got an
    answer (network failure, timeout). *)
Record AxiosError := { response : option HttpResponse; message : JsValue }.

(** How a call of an async function ends. *)
Inductive Completion (A : Type) :=
| Return (a : A)
| Throw (err : AxiosError).
Arguments Return {A} a.
Arguments Throw {A} err.

(** The hook's React state. *)
Record HookState := { isLoading : bool; error : JsValue }.

Definition setIsLoading (b : bool) (st : HookState) : HookState :=
  {| isLoading := b; error := error st |}.

Definition setError (e : JsValue) (st : HookState) : HookState :=
  {| isLoading := isLoading st; error := e |}.

(** [err.response?.data?.detail] *)
Definition response_detail (err : AxiosError) : JsValue :=
  match response err with
  | Some r => opt_field (data r) "detail"
  | None => JUndefined
  end.

(** [err.response?.status] *)
Definition response_status (err : AxiosError) : option Z :=
  status <$> response err.

(** [handleError]: records the message and throws the same error again. *)
Definition handleError {A} (err : AxiosError) (st : HookState)
    : Completion A * HookState :=
  let errorMessage :=
    js_or (js_or (response_detail err) (message err)) (JStr "An error occurred") in
  (Throw err, setError errorMessage st).

(** The settled promise of [apiClient.post]. *)
Inductive PostOutcome :=
| Resolved (r : HttpResponse)
| Rejected (err : AxiosError).

(** [deleteSession(sessionId)], with the outcome of the POST to
    [SESSION_DELETE(sessionId)] given.  The [finally] block runs on every
    exit. *)
Definition deleteSession (post : PostOutcome) (sessionId : JsValue)
    (st : HookState) : Completion JsValue * HookState :=
  let st := setIsLoading true st in
  let st := setError JNull st in
  let '(c, st) :=
    match post with
    | Resolved r => (Return (data r), st)
    | Rejected err =>
        if bool_decide (response_status err = Some 404%Z) then
          (Return (JObj [("success", JBool true);
                         ("message", JStr "Session not found (already deleted)");
                         ("session_id", sessionId)]), st)
        else handleError err st
    end in
  (c, setIsLoading false st).

End AssessmentAPI.

(** ** The backend: sessions, the two-tier store and the moderator *)

Module Assessment.

Local Open Scope Z_scope.

(** A module's result payload is a dictionary; the moderator only tests
    whether it is there and non-empty. *)
Abbreviation Payload := (gmap string string).

(** What the code raises. *)
Inductive Exn :=
| HTTPException (status_code : Z) (detail : string)
| ConcurrentModificationError (msg : string)
| StoreError (msg : string).

Inductive outcome (A : Type) :=
| Ok (a : A)
| Raise (e : Exn).
Arguments Ok {A} a.
Arguments Raise {A} e.

(** [SessionState] (assessment_v2/types.py).  The dataclass is only named in
    the sources ("existing fields"); the fields are those the functions
    below read and write.  Timestamps and free-form metadata are left out:
    no function here branches on them. *)
Record SessionState := {
  session_id : string;
  patient_id : option string;
  current_module : string;
  module_history : list string;
  module_results : gmap string Payload;
  is_complete : bool;
  version : Z
}.

Definition set_version (v : Z) (s : SessionState) : SessionState :=
  {| session_id := session_id s; patient_id := patient_id s;
     current_module := current_module s; module_history := module_history s;
     module_results := module_results s; is_complete := is_complete s;
     version := v |}.

Definition set_module_results (r : gmap string Payload) (s : SessionState)
    : SessionState :=
  {| session_id := session_id s; patient_id := patient_id s;
     current_module := current_module s; module_history := module_history s;
     module_results := r; is_complete := is_complete s;
     version := version s |}.

Definition set_module_history (h : list string) (s : SessionState)
    : SessionState :=
  {| session_id := session_id s; patient_id := patient_id s;
     current_module := current_module s; module_history := h;
     module_results := module_results s; is_complete := is_complete s;
     version := version s |}.

(** Python truthiness of the values the code tests with [if x] / [not x]. *)
Definition truthy_payload (r : option Payload) : bool :=
  match r with
  | Some p => negb (bool_decide (p = ∅))
  | None => false
  end.

Definition truthy_str (s : option string) : bool :=
  match s with
  | Some x => negb (String.eqb x "")
  | None => false
  end.

(** The durable store: one row per session, keyed by session identifier,
    and the stored module results keyed by session and module. *)
Record Database := {
  session_rows : gmap string SessionState;
  result_rows : gmap (string * string) Payload
}.

(** Modelled from the spec: the durable store's [get_session], whose code is
    not among the sources, is the lookup of the row by session identifier
    ("loads from the durable store").  [fault] stands for an error raised by
    the store during the call. *)
Definition get_session (d : Database) (fault : bool) (sid : string)
    : outcome (option SessionState) :=
  if fault then Raise (StoreError "get_session")
  else Ok (session_rows d !! sid).

(** Modelled from the spec: the durable store's [store_module_results],
    whose code is not among the sources, records the payload under the
    session and the module, or raises. *)
Definition store_module_results (d : Database) (fault : bool)
    (sid module_name : string) (results : Payload) : outcome Database :=
  if fault then Raise (StoreError "store_module_results")
  else Ok {| session_rows := session_rows d;
             result_rows := <[(sid, module_name) := results]> (result_rows d) |}.

(** [update_session] with optimistic locking (database.py, step 2.4), taken
    as one step: a call that nothing else interleaves with.  The query
    filters on the session identifier and on the version the caller holds;
    without a row the call raises.  Otherwise the caller's version is bumped
    and written to the row.  What the source does to the row after that is
    elided ("Proceed with update..."); the three fields copied here stand
    for it, and only the version is to be read off this definition.  The
    two steps of the call, query and write, are told apart in
    [Interleaving] below.  The call returns the store and the caller's
    session object after the call. *)
Definition update_session (d : Database) (session_state : SessionState)
    : outcome (Database * SessionState) :=
  let existing :=
    match session_rows d !! session_id session_state with
    | Some row =>
        if bool_decide (version row = version session_state) then Some row else None
    | None => None
    end in
  match existing with
  | None =>
      Raise (ConcurrentModificationError "Session was modified by another request")
  | Some existing =>
      let session_state := set_version (version session_state + 1) session_state in
      let existing :=
        {| session_id := session_id existing; patient_id := patient_id existing;
           current_module := current_module session_state;
           module_history := module_history session_state;
           module_results := module_results existing;
           is_complete := is_complete session_state;
           version := version session_state |} in
      Ok ({| session_rows := <[session_id session_state := existing]> (session_rows d);
             result_rows := result_rows d |},
          session_state)
  end.

(** Writers that each call [update_session] once, one after the other in
    the given order; the answers are [true] for a call that returned and
    [false] for one that raised [ConcurrentModificationError]. *)
Fixpoint run_updates (d : Database) (writers : list SessionState)
    : list bool * Database :=
  match writers with
  | [] => ([], d)
  | w :: rest =>
      match update_session d w with
      | Ok (d', _) => let '(rs, d'') := run_updates d' rest in (true :: rs, d'')
      | Raise _ => let '(rs, d'') := run_updates d rest in (false :: rs, d'')
      end
  end.

(** The version the store holds for a session. *)
Definition stored_version (d : Database) (sid : string) : option Z :=
  version <$> session_rows d !! sid.

(** The moderator: the in-memory cache [self.sessions] and, when configured,
    the durable store [self.db]. *)
Record Moderator := {
  sessions : gmap string SessionState;
  db : option Database
}.

(** [get_session_state]: cache, then database, then [None].  The second
    component is the moderator after the call (the cache may be warmed). *)
Definition get_session_state (self : Moderator) (fault : bool) (sid : string)
    : option SessionState * Moderator :=
  match sessions self !! sid with
  | Some session_state => (Some session_state, self)
  | None =>
      match db self with
      | Some d =>
          match get_session d fault sid with
          | Ok (Some session_state) =>
              (Some session_state,
               {| sessions := <[sid := session_state]> (sessions self);
                  db := db self |})
          | Ok None => (None, self)
          | Raise _ => (None, self)
          end
      | None => (None, self)
      end
  end.

(** [validate_session_ownership].  The sources give the guard on a missing
    owner and elide the rest of the function. *)

(** Modelled from the spec: the elided rest of [validate_session_ownership]
    is the comparison "session.owner == subject_id". *)
Definition owner_matches (session_patient_id : option string) (patient_id : string)
    : bool :=
  bool_decide (session_patient_id = Some patient_id).

Definition validate_session_ownership (session_state : SessionState)
    (patient_id : string) : bool :=
  let session_patient_id := Assessment.patient_id session_state in
  if negb (truthy_str session_patient_id) then false
  else owner_matches session_patient_id patient_id.

(** Prerequisites of the synthesis stages. *)

Definition in_history (module_name : string) (session_state : SessionState) : bool :=
  bool_decide (module_name ∈ module_history session_state).

(** [_should_run_da]: the loop over the diagnostic modules, which come from
    the configuration ([get_diagnostic_modules()], not among the sources). *)
Fixpoint _should_run_da (diagnostic_modules : list string)
    (session_state : SessionState) : bool :=
  match diagnostic_modules with
  | [] => true
  | module_name :: rest =>
      if negb (in_history module_name session_state) then false
      else if negb (truthy_payload (module_results session_state !! module_name))
      then false
      else _should_run_da rest session_state
  end.

Definition _should_run_tpa (session_state : SessionState) : bool :=
  in_history "da_diagnostic_analysis" session_state
  && truthy_payload (module_results session_state !! "da_diagnostic_analysis").

(** A module is done in a session when it is in the history and its result
    is there and non-empty. *)
Definition done_in (session_state : SessionState) (module_name : string) : Prop :=
  module_name ∈ module_history session_state
  ∧ ∃ r, module_results session_state !! module_name = Some r ∧ r ≠ ∅.

(** *** Message processing

    The session object handed out by [get_session_state] is the one the
    cache holds, so what [process_message] writes into it is seen by the
    next turn.  The code between the ownership check and the completion
    handling runs the active module; its answers are given by a
    [ModuleReport]. *)

Definition truthy_dict (m : gmap string Payload) : bool :=
  negb (bool_decide (m = ∅)).

(** What the active module answers in one turn. *)
Record ModuleReport := {
  module_complete : bool;
  reply : string;
  (** [hasattr(module, 'get_results')] *)
  has_get_results : bool;
  (** [module.get_results(session_id)]: raises, or returns [None] or a
      dictionary *)
  get_results : outcome (option Payload)
}.

(** What lies outside the moderator during one turn: the active module's
    handling of the message, and whether the store fails on load or on
    write. *)
Record TurnEnv := {
  load_fault : bool;
  advance : string -> ModuleReport;
  store_fault : bool
}.

(** The session object and the store, as the completion handling sees and
    mutates them. *)
Record World := {
  state : SessionState;
  durable : option Database
}.

(** Computations that mutate the world and may raise; what was written
    before a [Raise] stays written. *)
Definition Py (A : Type) : Type := World -> outcome A * World.

Definition ret {A} (a : A) : Py A := fun w => (Ok a, w).

Definition bind {A B} (m : Py A) (k : A -> Py B) : Py B :=
  fun w =>
    match m w with
    | (Ok a, w') => k a w'
    | (Raise e, w') => (Raise e, w')
    end.

(** [try: m except Exception as e: handler e] *)
Definition try_except {A} (m : Py A) (handler : Exn -> Py A) : Py A :=
  fun w =>
    match m w with
    | (Ok a, w') => (Ok a, w')
    | (Raise e, w') => handler e w'
    end.

Declare Scope py_scope.
Delimit Scope py_scope with py.
Notation "x <- m ;; k" := (bind m (fun x => k))
  (at level 100, m at next level, right associativity) : py_scope.
Notation "m ;; k" := (bind m (fun _ => k))
  (at level 100, right associativity) : py_scope.

(** [module_results = module.get_results(session_id)] *)
Definition call_get_results (m : ModuleReport) : Py (option Payload) :=
  fun w => (get_results m, w).

(** [if not session_state.module_results: session_state.module_results = {}]
    followed by [session_state.module_results[current_module_name] = module_results] *)
Definition record_results (current_module_name : string) (results : Payload)
    : Py unit :=
  fun w =>
    let existing :=
      if negb (truthy_dict (module_results (state w))) then ∅
      else module_results (state w) in
    (Ok tt,
     {| state := set_module_results (<[current_module_name := results]> existing) (state w);
        durable := durable w |}).

(** [if hasattr(self, 'db') and self.db: self.db.store_module_results(...)] *)
Definition persist_results (fault : bool) (sid current_module_name : string)
    (results : Payload) : Py unit :=
  fun w =>
    match durable w with
    | Some d =>
        match store_module_results d fault sid current_module_name results with
        | Ok d' => (Ok tt, {| state := state w; durable := Some d' |})
        | Raise e => (Raise e, w)
        end
    | None => (Ok tt, w)
    end.

(** The body of the [try] block. *)
Definition store_and_persist (env : ModuleReport) (fault : bool)
    (sid current_module_name : string) : Py unit :=
  (if has_get_results env then
     module_results <- call_get_results env ;;
     if truthy_payload module_results then
       match module_results with
       | Some results =>
           record_results current_module_name results ;;
           persist_results fault sid current_module_name results
       | None => ret tt
       end
     else ret tt
   else ret tt)%py.

(** Modelled from the spec: [_mark_module_completed], whose code is not among
    the sources, appends the module to [module_history] ("append the module
    to module_history"). *)
Definition _mark_module_completed (current_module_name : string) : Py unit :=
  fun w =>
    (Ok tt,
     {| state := set_module_history
                   (module_history (state w) ++ [current_module_name]) (state w);
        durable := durable w |}).

(** The [if module_complete:] block of [process_message].  [Some text] is
    the early [return text] of the [except] branch; [None] means that the
    block fell through, the module being marked completed. *)
Definition on_module_complete (env : ModuleReport) (fault : bool)
    (sid current_module_name : string) : Py (option string) :=
  (early <- try_except
              (store_and_persist env fault sid current_module_name ;; ret None)
              (fun _ => ret (Some "Error saving module results. Please try again.")) ;;
   match early with
   | Some text => ret (Some text)
   | None => _mark_module_completed current_module_name ;; ret None
   end)%py.

(** [process_message]: load without creating, check the owner, and then the
    body.  The source gives the body only as "Proceed with message
    processing..."; what stands for it here is the completion block alone,
    without the module's own work on the message and without the session
    update the plan wraps in step 2.2.  So the 404 and 403 answers are to be
    read off this definition, and for the block itself [on_module_complete];
    the store, the version and the answer of an accepted turn are not.  The
    session object is the cached one, so its final state is the cache entry
    after the call. *)
Definition process_message (self : Moderator) (env : TurnEnv)
    (user_id sid message : string) : outcome string * Moderator :=
  let '(found, self) := get_session_state self (load_fault env) sid in
  match found with
  | None =>
      (Raise (HTTPException 404
                "Session not found. Please start a new assessment session first."),
       self)
  | Some session_state =>
      if negb (validate_session_ownership session_state user_id) then
        (Raise (HTTPException 403 "Access denied to this session"), self)
      else
        let module := advance env message in
        if module_complete module then
          let '(r, w) :=
            on_module_complete module (store_fault env) sid
              (current_module session_state)
              {| state := session_state; durable := db self |} in
          let self := {| sessions := <[sid := state w]> (sessions self);
                         db := durable w |} in
          match r with
          | Ok (Some text) => (Ok text, self)
          | Ok None => (Ok (reply module), self)
          | Raise e => (Raise e, self)
          end
        else (Ok (reply module), self)
  end.

(** Completion handling run over several turns of one session: each turn
    names the module that completed and carries what that module and the
    store answered.  Turns whose handling returns early leave the module
    active. *)
Record Completion := {
  completed_module : string;
  module_report : ModuleReport;
  write_fault : bool
}.

Definition complete_turn (sid : string) (c : Completion) : Py (option string) :=
  on_module_complete (module_report c) (write_fault c) sid (completed_module c).

Fixpoint run_completions (sid : string) (w : World) (turns : list Completion)
    : World :=
  match turns with
  | [] => w
  | c :: rest => run_completions sid (snd (complete_turn sid c w)) rest
  end.

(** The persistence of a completed module's result fails when the module
    raises on [get_results], or when it hands out a non-empty result and the
    configured store raises on the write. *)
Definition persistence_fails (m : ModuleReport) (fault : bool)
    (store : option Database) : Prop :=
  has_get_results m = true
  ∧ ((∃ e, get_results m = Raise e)
     ∨ (∃ r, get_results m = Ok (Some r) ∧ r ≠ ∅ ∧ fault = true ∧ is_Some store)).

(** The same, as a test. *)
Definition persistence_failsb (m : ModuleReport) (fault : bool)
    (store : option Database) : bool :=
  has_get_results m
  && match get_results m with
     | Raise _ => true
     | Ok o => truthy_payload o && fault && bool_decide (is_Some store)
     end.

(** The turns whose result was not refused, given the store the run starts
    with. *)
Definition persisted (store : option Database) (turns : list Completion)
    : list Completion :=
  List.filter
    (fun c => negb (persistence_failsb (module_report c) (write_fault c) store))
    turns.

(** The module hands out a non-empty result whenever it answers. *)
Definition yields_results (c : Completion) : Prop :=
  has_get_results (module_report c) = true
  ∧ ∀ o, get_results (module_report c) = Ok o → truthy_payload o = true.

(** Every module of the history has a non-empty entry in the results. *)
Definition history_has_results (w : World) : Prop :=
  ∀ m, m ∈ module_history (state w) →
       truthy_payload (module_results (state w) !! m) = true.

End Assessment.

(** ** Sample inputs

    Concrete requests, sessions and turns on which the properties below are
    exercised. *)

Module Samples.

Import AssessmentAPI Assessment.
Local Open Scope Z_scope.

(** The delete endpoint answers 404. *)
Definition gone : AxiosError :=
  {| response := Some {| status := 404;
                         data := JObj [("detail", JStr "Session not found")] |};
     message := JStr "Request failed with status code 404" |}.

(** The delete endpoint answers 500. *)
Definition server_down : AxiosError :=
  {| response := Some {| status := 500; data := JNull |};
     message := JStr "Request failed with status code 500" |}.

Definition idle : HookState := {| isLoading := false; error := JNull |}.

(** A fresh session of patient u1, in its first module. *)
Definition fresh : SessionState :=
  {| session_id := "s-1"; patient_id := Some "u1"; current_module := "phq9";
     module_history := []; module_results := ∅; is_complete := false;
     version := 0 |}.

(** The same session held by a second writer. *)
Definition fresh_other : SessionState :=
  {| session_id := "s-1"; patient_id := Some "u1"; current_module := "gad7";
     module_history := ["phq9"]; module_results := ∅; is_complete := false;
     version := 0 |}.

(** A session record without an owner. *)
Definition ownerless : SessionState :=
  {| session_id := "s-2"; patient_id := None; current_module := "phq9";
     module_history := []; module_results := ∅; is_complete := false;
     version := 0 |}.

Definition store0 : Database :=
  {| session_rows := {[ "s-1" := fresh ]}; result_rows := ∅ |}.

(** The session is cached and stored. *)
Definition moderator0 : Moderator :=
  {| sessions := {[ "s-1" := fresh ]}; db := Some store0 |}.

(** The session is stored but not cached. *)
Definition cold : Moderator :=
  {| sessions := ∅; db := Some store0 |}.

(** An owner-less session sits in the cache. *)
Definition tainted : Moderator :=
  {| sessions := {[ "s-2" := ownerless ]}; db := Some store0 |}.

Definition phq9_result : Payload := {[ "score" := "12" ]}.

(** The module completes and hands out a result. *)
Definition completes : ModuleReport :=
  {| module_complete := true; reply := "Let us move on.";
     has_get_results := true; get_results := Ok (Some phq9_result) |}.

(** The module completes but has no result to hand out. *)
Definition completes_empty : ModuleReport :=
  {| module_complete := true; reply := "Let us move on.";
     has_get_results := true; get_results := Ok None |}.

(** The module asks its next question. *)
Definition continues : ModuleReport :=
  {| module_complete := false; reply := "How often?";
     has_get_results := true; get_results := Ok None |}.

(** A turn in which the store refuses the write. *)
Definition failing_turn : TurnEnv :=
  {| load_fault := false; advance := fun _ => completes; store_fault := true |}.

(** A turn in which everything works. *)
Definition good_turn : TurnEnv :=
  {| load_fault := false; advance := fun _ => completes; store_fault := false |}.

(** A turn in which the module completes without a result. *)
Definition empty_turn : TurnEnv :=
  {| load_fault := false; advance := fun _ => completes_empty; store_fault := false |}.

(** A turn in which the module is not yet complete. *)
Definition open_turn : TurnEnv :=
  {| load_fault := false; advance := fun _ => continues; store_fault := false |}.

Definition world0 : World := {| state := fresh; durable := Some store0 |}.

(** The first module completes with a result. *)
Definition phq9_done : Completion :=
  {| completed_module := "phq9"; module_report := completes; write_fault := false |}.

(** The store refuses the write of the first module's result. *)
Definition phq9_refused : Completion :=
  {| completed_module := "phq9"; module_report := completes; write_fault := true |}.

(** A session in which the diagnostic analysis was entered but left no
    result. *)
Definition da_attempted : SessionState :=
  {| session_id := "s-3"; patient_id := Some "u1";
     current_module := "tpa_treatment_planning";
     module_history := ["phq9"; "da_diagnostic_analysis"];
     module_results := {[ "phq9" := phq9_result ]};
     is_complete := false; version := 4 |}.

End Samples.

(** ** The other calls of the assessment API hook *)

Module ApiCalls.

Import AssessmentAPI.

(** The calls whose body is [try { setIsLoading(true); setError(null);
    response = await apiClient...; return response.data } catch (err) {
    handleError(err) } finally { setIsLoading(false) }].  They differ in
    the endpoint and the HTTP verb only; [settled] is the settled promise of
    the request. *)
Definition request_data (settled : PostOutcome) (st : HookState)
    : Completion JsValue * HookState :=
  let st := setIsLoading true st in
  let st := setError JNull st in
  let '(c, st) :=
    match settled with
    | Resolved r => (Return (data r), st)
    | Rejected err => handleError err st
    end in
  (c, setIsLoading false st).

Definition saveSession := request_data.
Definition saveInitialInfo := request_data.
Definition getResults := request_data.
Definition getAssessmentResult := request_data.
Definition getHistory := request_data.
Definition getAnalytics := request_data.
Definition getComprehensiveReport := request_data.
Definition getAssessmentData := request_data.
Definition switchModule := request_data.
Definition getModules := request_data.

(** [getHealth]: no loading flag, no recorded error; the error is logged and
    thrown again. *)
Definition getHealth (settled : PostOutcome) (st : HookState)
    : Completion JsValue * HookState :=
  match settled with
  | Resolved r => (Return (data r), st)
  | Rejected err => (Throw err, st)
  end.

(** A field of a payload: absent, [null], or a value. *)
Inductive Nullable (A : Type) :=
| Undefined
| Null
| Val (a : A).
Arguments Undefined {A}.
Arguments Null {A}.
Arguments Val {A} a.

(** [null] or [undefined] *)
Definition nullish {A} (x : Nullable A) : bool :=
  match x with
  | Val _ => false
  | _ => true
  end.

(** [x ?? y] *)
Definition coalesce {A} (x y : Nullable A) : Nullable A :=
  match x with
  | Val _ => x
  | _ => y
  end.

(** [x ?? d] with a value on the right *)
Definition or_else {A} (x : Nullable A) (d : A) : A :=
  match x with
  | Val a => a
  | _ => d
  end.

(** ToNumber on a numeric field: [undefined] is NaN (here [None]) and
    [null] is 0. *)
Definition to_number (x : Nullable Z) : option Z :=
  match x with
  | Undefined => None
  | Null => Some 0%Z
  | Val n => Some n
  end.

(** [a < b]: false as soon as one side is NaN. *)
Definition js_lt (a b : Nullable Z) : bool :=
  match to_number a, to_number b with
  | Some x, Some y => (x <? y)%Z
  | _, _ => false
  end.

(** The pagination part of a sessions listing as the server may send it:
    page counts are integers, the flags booleans, any field may be missing
    or [null]. *)
Record PagePayload := {
  page : Nullable Z;
  page_size : Nullable Z;
  pageSize : Nullable Z;
  total_pages : Nullable Z;
  totalPages : Nullable Z;
  total_sessions : Nullable Z;
  totalSessions : Nullable Z;
  sessions : Nullable (list JsValue);
  has_next : Nullable bool;
  has_previous : Nullable bool
}.

Record Pagination := {
  pg_page : Z;
  pg_pageSize : Z;
  pg_totalPages : Z;
  pg_totalSessions : Z;
  pg_hasNext : bool;
  pg_hasPrevious : bool
}.

(** [payload.sessions?.length] *)
Definition sessions_length (payload : PagePayload) : Nullable Z :=
  match sessions payload with
  | Val l => Val (Z.of_nat (length l))
  | _ => Undefined
  end.

(** [normalizePagination].  [<] and [>] bind tighter than [??], so
    [hasNext] is [(has_next ?? (page < total_pages)) ?? false]. *)
Definition normalizePagination (payload : PagePayload) : Pagination :=
  {| pg_page := or_else (page payload) 1%Z;
     pg_pageSize := or_else (coalesce (page_size payload) (pageSize payload)) 20%Z;
     pg_totalPages := or_else (coalesce (total_pages payload) (totalPages payload)) 0%Z;
     pg_totalSessions :=
       or_else (coalesce (total_sessions payload) (totalSessions payload))
         (or_else (sessions_length payload) 0%Z);
     pg_hasNext :=
       or_else
         (coalesce (has_next payload)
            (Val (js_lt (page payload) (total_pages payload))))
         false;
     pg_hasPrevious :=
       or_else (has_previous payload)
         (1 <? or_else (page payload) 1%Z)%Z |}.

(** A default parameter value: used when the argument is [undefined]. *)
Definition default_param {A} (x : Nullable A) (d : A) : Nullable A :=
  match x with
  | Undefined => Val d
  | _ => x
  end.

(** [getSessions(page = 1, pageSize = 20)]: the v2 API has no listing
    endpoint, so no request is made. *)
Definition getSessions (page pageSize : Nullable Z) (st : HookState)
    : (list JsValue * Pagination) * HookState :=
  let page := default_param page 1%Z in
  let pageSize := default_param pageSize 20%Z in
  let st := setIsLoading true st in
  let st := setError JNull st in
  let result :=
    ([],
     normalizePagination
       {| ApiCalls.page := Val 1%Z; page_size := pageSize; ApiCalls.pageSize := Undefined;
          total_pages := Val 1%Z; totalPages := Undefined;
          total_sessions := Val 0%Z; totalSessions := Undefined;
          sessions := Undefined;
          has_next := Val false; has_previous := Val false |}) in
  (result, setIsLoading false st).

End ApiCalls.

(** ** The initial-information form, which sets the questionnaire flag *)

Module Wizard.

Import AssessmentAPI.

(** White space of [String.prototype.trim] among the code units below 256;
    strings are taken as sequences of such code units. *)
Definition is_js_space (c : Ascii.ascii) : bool :=
  match Ascii.N_of_ascii c with
  | 9%N | 10%N | 11%N | 12%N | 13%N | 32%N | 160%N => true
  | _ => false
  end.

Fixpoint trimStart (l : list Ascii.ascii) : list Ascii.ascii :=
  match l with
  | [] => []
  | c :: rest => if is_js_space c then trimStart rest else l
  end.

Definition trim (s : string) : string :=
  String.string_of_list_ascii
    (rev (trimStart (rev (trimStart (String.list_ascii_of_string s))))).

(** [!s.trim()] *)
Definition blank (s : string) : bool := String.eqb (trim s) "".

(** [!s] *)
Definition empty (s : string) : bool := String.eqb s "".

(** The component's state.  [formData] starts with every field present and
    fields are only ever overwritten, so a field is read with the empty
    string standing for a missing key. *)
Record FormState := {
  formData : gmap string string;
  errors : gmap string JsValue;
  isSubmitting : bool;
  currentStep : Z;
  redirectPath : string;
  missingRequiredFields : list string
}.

Definition field (st : FormState) (name : string) : string :=
  default "" (formData st !! name).

Definition setErrors (e : gmap string JsValue) (st : FormState) : FormState :=
  {| formData := formData st; errors := e; isSubmitting := isSubmitting st;
     currentStep := currentStep st; redirectPath := redirectPath st;
     missingRequiredFields := missingRequiredFields st |}.

Definition setFormData (f : gmap string string) (st : FormState) : FormState :=
  {| formData := f; errors := errors st; isSubmitting := isSubmitting st;
     currentStep := currentStep st; redirectPath := redirectPath st;
     missingRequiredFields := missingRequiredFields st |}.

Definition setIsSubmitting (b : bool) (st : FormState) : FormState :=
  {| formData := formData st; errors := errors st; isSubmitting := b;
     currentStep := currentStep st; redirectPath := redirectPath st;
     missingRequiredFields := missingRequiredFields st |}.

Definition setCurrentStep (n : Z) (st : FormState) : FormState :=
  {| formData := formData st; errors := errors st; isSubmitting := isSubmitting st;
     currentStep := n; redirectPath := redirectPath st;
     missingRequiredFields := missingRequiredFields st |}.

Definition setMissingRequiredFields (m : list string) (st : FormState) : FormState :=
  {| formData := formData st; errors := errors st; isSubmitting := isSubmitting st;
     currentStep := currentStep st; redirectPath := redirectPath st;
     missingRequiredFields := m |}.

(** [if (cond) newErrors[key] = text] *)
Definition require (missing : bool) (key text : string)
    (newErrors : gmap string JsValue) : gmap string JsValue :=
  if missing then <[key := JStr text]> newErrors else newErrors.

(** The errors [validateStep] collects for a step. *)
Definition step_errors (step : Z) (st : FormState) : gmap string JsValue :=
  let newErrors : gmap string JsValue := ∅ in
  match step with
  | 1%Z =>
      let newErrors := require (blank (field st "age")) "age" "Age is required" newErrors in
      let newErrors := require (blank (field st "city")) "city" "City is required" newErrors in
      require (blank (field st "country")) "country" "Country is required" newErrors
  | 2%Z =>
      let newErrors :=
        require (empty (field st "marital_status")) "marital_status"
          "Marital status is required" newErrors in
      let newErrors :=
        require (blank (field st "occupation")) "occupation"
          "Occupation is required" newErrors in
      let newErrors :=
        require (blank (field st "education")) "education"
          "Education is required" newErrors in
      require (empty (field st "employment_status")) "employment_status"
        "Employment status is required" newErrors
  | _ => newErrors
  end.

(** [validateStep(step)]: stores the errors and answers whether there are
    none. *)
Definition validateStep (step : Z) (st : FormState) : bool * FormState :=
  let newErrors := step_errors step st in
  (bool_decide (size newErrors = 0%nat), setErrors newErrors st).

(** [handleInputChange(field, value)] *)
Definition handleInputChange (name value : string) (st : FormState) : FormState :=
  let st' := setFormData (<[name := value]> (formData st)) st in
  if truthy (default JUndefined (errors st !! name))
  then setErrors (<[name := JStr ""]> (errors st)) st'
  else st'.

Definition handleNext (st : FormState) : FormState :=
  let '(ok, st') := validateStep (currentStep st) st in
  if ok then setCurrentStep (currentStep st' + 1) st' else st'.

Definition handlePrevious (st : FormState) : FormState :=
  setCurrentStep (currentStep st - 1) st.

(** The page around the component: the form, the browser's localStorage,
    where the router was sent, and the toasts shown ([true] for a success
    toast). *)
Record Page := {
  form : FormState;
  storage : gmap string string;
  navigated : option string;
  toasts : list (bool * JsValue)
}.

(** The settled POST of the form: the [missing_fields] of the response body
    when it has them ([response.data?.missing_fields]), or the error. *)
Inductive SubmitOutcome :=
| Saved (missing_fields : option (list string))
| Failed (err : AxiosError).

(** How [handleSubmit] ends: it returns, or the [catch] block itself throws
    a TypeError. *)
Inductive Ending :=
| Returned
| TypeError.

Section Routes.

(** [ROUTES.DASHBOARD], from the routes configuration. *)
Variable DASHBOARD : string.

(** The state the component starts with: every field empty, step 1. *)
Definition initialFormData : gmap string string :=
  list_to_map
    ((λ name, (name, "")) <$>
     ["age"; "city"; "country"; "marital_status"; "occupation"; "education";
      "employment_status"; "past_psychiatric_diagnosis";
      "past_psychiatric_treatment"; "hospitalizations"; "ect_history";
      "current_medications"; "medication_allergies"; "otc_supplements";
      "medication_adherence"; "medical_history_summary"; "chronic_illnesses";
      "neurological_problems"; "head_injury"; "seizure_history";
      "pregnancy_status"; "alcohol_use"; "drug_use"; "prescription_drug_abuse";
      "last_use_date"; "substance_treatment"; "tobacco_use";
      "family_mental_health_history"; "family_mental_health_stigma";
      "cultural_background"; "cultural_beliefs"; "spiritual_supports";
      "lifestyle_smoking"; "lifestyle_alcohol"; "lifestyle_activity"]).

Definition initialForm : FormState :=
  {| formData := initialFormData; errors := ∅; isSubmitting := false;
     currentStep := 1; redirectPath := DASHBOARD; missingRequiredFields := [] |}.

(** The [catch] block of [handleSubmit]. *)
Definition on_submit_error (err : AxiosError) (p : Page) : Ending * Page :=
  match response err with
  | Some r =>
      match data r with
      | JUndefined | JNull => (TypeError, p)
      | body =>
          let errorDetail := opt_field body "detail" in
          let errorMessage :=
            match errorDetail with
            | JStr _ => errorDetail
            | _ => js_or (opt_field errorDetail "message")
                     (JStr "Failed to submit questionnaire. Please try again.")
            end in
          (Returned,
           {| form := setErrors {[ "form" := errorMessage ]} (form p);
              storage := storage p; navigated := navigated p;
              toasts := toasts p ++ [(false, errorMessage)] |})
      end
  | None =>
      let text := JStr "Network error. Please check your connection and try again." in
      (Returned,
       {| form := setErrors {[ "form" := text ]} (form p);
          storage := storage p; navigated := navigated p;
          toasts := toasts p ++ [(false, text)] |})
  end.

(** [handleSubmit], with the settled POST given. *)
Definition handleSubmit (post : SubmitOutcome) (p : Page) : Ending * Page :=
  let '(ok, st) := validateStep (currentStep (form p)) (form p) in
  if negb ok then
    (Returned,
     {| form := st; storage := storage p; navigated := navigated p;
        toasts := toasts p |})
  else
    let st := setIsSubmitting true st in
    let st := setErrors ∅ st in
    let p := {| form := st; storage := storage p; navigated := navigated p;
                toasts := toasts p |} in
    let '(ending, p) :=
      match post with
      | Saved missing_fields =>
          let missing := default [] missing_fields in
          if (0 <? Z.of_nat (length missing))%Z then
            (Returned,
             {| form := setMissingRequiredFields missing (form p);
                storage := storage p; navigated := navigated p;
                toasts := toasts p ++
                  [(false, JStr "We still need a bit more information. Please complete the highlighted fields.")] |})
          else
            (Returned,
             {| form := setMissingRequiredFields [] (form p);
                storage := Questionnaire.markQuestionnaireCompleted (storage p);
                navigated :=
                  Some (if empty (redirectPath (form p)) then DASHBOARD
                        else redirectPath (form p));
                toasts := toasts p ++
                  [(true, JStr "Initial information saved successfully! Redirecting to your assessment.")] |})
      | Failed err => on_submit_error err p
      end in
    (ending,
     {| form := setIsSubmitting false (form p); storage := storage p;
        navigated := navigated p; toasts := toasts p |}).

(** What the user can do.  The inputs of a step are the ones its panel
    renders; Previous is disabled on step 1; Next is rendered below the
    last of the four steps and the submit button on it, disabled while
    submitting. *)
Inductive Event :=
| Input (name value : string)
| Previous
| Next
| Submit (post : SubmitOutcome).

Definition shown_at (step : Z) (name : string) : bool :=
  match step with
  | 1%Z => bool_decide (name ∈ ["age"; "city"; "country"])
  | 2%Z => bool_decide (name ∈ ["marital_status"; "occupation"; "education";
                                "employment_status"])
  | 3%Z => bool_decide (name ∈ ["past_psychiatric_diagnosis"; "current_medications";
                                "medical_history_summary"; "alcohol_use"])
  | _ => false
  end.

Definition enabled (st : FormState) (ev : Event) : bool :=
  match ev with
  | Input name _ => shown_at (currentStep st) name
  | Previous => negb (currentStep st =? 1)%Z
  | Next => (currentStep st <? 4)%Z
  | Submit _ => negb (currentStep st <? 4)%Z && negb (isSubmitting st)
  end.

Definition with_form (st : FormState) (p : Page) : Page :=
  {| form := st; storage := storage p; navigated := navigated p;
     toasts := toasts p |}.

(** One event; an event the page does not offer changes nothing. *)
Definition react (p : Page) (ev : Event) : Page :=
  if enabled (form p) ev then
    match ev with
    | Input name value => with_form (handleInputChange name value (form p)) p
    | Previous => with_form (handlePrevious (form p)) p
    | Next => with_form (handleNext (form p)) p
    | Submit post => snd (handleSubmit post p)
    end
  else p.

(** A run of events, each handled to its end before the next one. *)
Definition run (p : Page) (events : list Event) : Page :=
  fold_left react events p.

End Routes.

(** The required fields of the two validated steps. *)
Definition step1_filled (st : FormState) : Prop :=
  blank (field st "age") = false
  ∧ blank (field st "city") = false
  ∧ blank (field st "country") = false.

Definition step2_filled (st : FormState) : Prop :=
  empty (field st "marital_status") = false
  ∧ blank (field st "occupation") = false
  ∧ blank (field st "education") = false
  ∧ empty (field st "employment_status") = false.

(** The steps before the current one have their required fields filled,
    and the current step is one of the four. *)
Definition validated_so_far (st : FormState) : Prop :=
  (1 ≤ currentStep st ≤ 4)%Z
  ∧ ((2 ≤ currentStep st)%Z → step1_filled st)
  ∧ ((3 ≤ currentStep st)%Z → step2_filled st).

(** The POST went through and the server asks for nothing more. *)
Definition accepted (post : SubmitOutcome) : bool :=
  match post with
  | Saved missing_fields => negb (0 <? Z.of_nat (length (default [] missing_fields)))%Z
  | Failed _ => false
  end.

End Wizard.

(** ** More of the backend plan: persisting, the unversioned update, and
    the patient identifier *)

Module Persistence.

Import Assessment.
Local Open Scope Z_scope.

(** Step 2.2: the call sites wrap [self.db.update_session(session_state)]
    in [try ... except Exception] and raise an HTTP 500 instead. *)
Definition persist_or_500 (d : Database) (session_state : SessionState)
    : outcome (Database * SessionState) :=
  match update_session d session_state with
  | Ok r => Ok r
  | Raise _ =>
      Raise (HTTPException 500 "Failed to save session data. Please try again.")
  end.

(** A caller that keeps updating with the session object it got back. *)
Fixpoint update_repeatedly (n : nat) (d : Database) (session_state : SessionState)
    : outcome (Database * SessionState) :=
  match n with
  | O => Ok (d, session_state)
  | S n' =>
      match update_session d session_state with
      | Ok (d', session_state') => update_repeatedly n' d' session_state'
      | Raise e => Raise e
      end
  end.

End Persistence.

(** Step 1.4: [update_session] before versions were added.  The function
    runs inside [@transactional]: when the store raises, the transaction is
    rolled back and the error raised again, so the store is as before. *)
Module Step14.

Import Assessment.

Definition update_session (d : Database) (fault : bool)
    (session_state : SessionState) : outcome bool * Database :=
  if fault then (Raise (StoreError "update_session"), d)
  else
    match session_rows d !! session_id session_state with
    | Some session_model =>
        let session_model :=
          {| session_id := session_id session_model;
             patient_id := patient_id session_model;
             current_module := current_module session_state;
             module_history := module_history session_state;
             module_results := module_results session_model;
             is_complete := is_complete session_state;
             version := version session_model |} in
        (Ok true,
         {| session_rows := <[session_id session_state := session_model]> (session_rows d);
            result_rows := result_rows d |})
    | None => (Ok false, d)
    end.

End Step14.

(** Step 1.2: the unified [get_patient_id]. *)
Module PatientId.

(** An attribute of a Python object: not there ([hasattr] is false), there
    and [None], or there with a value, given by its [str()]. *)
Inductive Attr :=
| Missing
| PyNone
| PyStr (s : string).

(** [str(x)] of an attribute that is there. *)
Definition py_str (a : Attr) : string :=
  match a with
  | PyStr s => s
  | _ => "None"
  end.

Definition has (a : Attr) : bool :=
  match a with
  | Missing => false
  | _ => true
  end.

(** The value an attribute read gives, [None] included. *)
Definition attr_value (a : Attr) : option string :=
  match a with
  | PyStr s => Some s
  | _ => None
  end.

(** A user object, as far as the function looks at it. *)
Record UserObj := { id : Attr; email : Attr }.

(** What the authentication layer hands over: nothing, a dictionary with
    the keys the function reads ([None] for a key that is missing or holds a
    falsy value where only truthiness is asked), or an object. *)
Record UserDict := {
  user : option UserObj;
  user_id : option string;
  dict_email : option string
}.

Inductive UserData :=
| NoData
| DictData (d : UserDict)
| ObjData (o : UserObj).

(** [if x:] on an optional string *)
Definition truthy (x : option string) : bool :=
  match x with
  | Some s => negb (String.eqb s "")
  | None => false
  end.

Section Environment.

(** [uuid.UUID(s)] accepts the string ([true]) or raises ValueError. *)
Variable is_uuid : string -> bool.

(** The patients table, by e-mail address, and whether the lookup raises. *)
Variable patients : gmap string string.
Variable fault : bool.

(** [db.query(Patient).filter(Patient.email == email).first()] inside
    [try ... except Exception]. *)
Definition lookup_by_email (email : string) : option string :=
  if fault then None else patients !! email.

Definition get_patient_id (current_user_data : UserData) : option string :=
  match current_user_data with
  | NoData => None
  | DictData d =>
      let candidate :=
        match user d with
        | Some u => if has (id u) then Some (py_str (id u)) else user_id d
        | None => user_id d
        end in
      let validated :=
        if truthy candidate then
          match candidate with
          | Some c => if is_uuid c then Some c else None
          | None => None
          end
        else None in
      match validated with
      | Some c => Some c
      | None =>
          let email :=
            match user d with
            | Some u =>
                if has (PatientId.email u) then attr_value (PatientId.email u)
                else if truthy (dict_email d) then dict_email d else None
            | None => if truthy (dict_email d) then dict_email d else None
            end in
          if truthy email then
            match email with
            | Some e => lookup_by_email e
            | None => None
            end
          else None
      end
  | ObjData o =>
      if has (id o) then
        if is_uuid (py_str (id o)) then Some (py_str (id o)) else None
      else None
  end.

End Environment.

End PatientId.

(** ** Two update calls in flight

    [update_session] is a query followed by writes, with no lock and no
    condition on the version in the write.  Here the two steps are apart,
    so that two calls can take them in any order. *)

Module Interleaving.

Import Assessment.
Local Open Scope Z_scope.

(** The query: the row of the caller's session that carries the caller's
    version, if there is one. *)
Definition find_row (d : Database) (session_state : SessionState)
    : option SessionState :=
  match session_rows d !! session_id session_state with
  | Some row =>
      if bool_decide (version row = version session_state) then Some row else None
  | None => None
  end.

(** What follows the query when it found a row: the caller's version is
    bumped and written to the row that was read. *)
Definition write_row (d : Database) (existing session_state : SessionState)
    : Database * SessionState :=
  let session_state := set_version (version session_state + 1) session_state in
  let existing :=
    {| session_id := session_id existing; patient_id := patient_id existing;
       current_module := current_module session_state;
       module_history := module_history session_state;
       module_results := module_results existing;
       is_complete := is_complete session_state;
       version := version session_state |} in
  ({| session_rows := <[session_id session_state := existing]> (session_rows d);
      result_rows := result_rows d |},
   session_state).

(** Where a call stands: not begun, past its query with the row it read,
    returned with the caller's object, or ended by an exception. *)
Inductive Call :=
| Pending (session_state : SessionState)
| Queried (existing session_state : SessionState)
| Done (session_state : SessionState)
| Failed (e : Exn).

(** The next step of a call. *)
Definition step_call (d : Database) (c : Call) : Database * Call :=
  match c with
  | Pending session_state =>
      match find_row d session_state with
      | Some existing => (d, Queried existing session_state)
      | None =>
          (d, Failed (ConcurrentModificationError
                        "Session was modified by another request"))
      end
  | Queried existing session_state =>
      let '(d', session_state') := write_row d existing session_state in
      (d', Done session_state')
  | _ => (d, c)
  end.

(** Two calls against one store; the schedule names, step by step, the call
    that moves ([true] for the first). *)
Fixpoint interleave (d : Database) (a b : Call) (schedule : list bool)
    : Database * Call * Call :=
  match schedule with
  | [] => (d, a, b)
  | true :: rest => let '(d', a') := step_call d a in interleave d' a' b rest
  | false :: rest => let '(d', b') := step_call d b in interleave d' a b' rest
  end.

End Interleaving.

(** ** More sample inputs *)

Module MoreSamples.

Import Assessment Samples.
Local Open Scope Z_scope.

(** A turn during which the store cannot be read. *)
Definition outage_turn : TurnEnv :=
  {| load_fault := true; advance := fun _ => completes; store_fault := false |}.

(** A well-formed identifier, and a check that accepts just that one. *)
Definition patient_uuid : string := "123e4567-e89b-12d3-a456-426614174000".

Definition only_patient_uuid (s : string) : bool := String.eqb s patient_uuid.

(** A token payload whose user object carries no usable id, next to a valid
    [user_id] entry. *)
Definition stale_token : PatientId.UserDict :=
  {| PatientId.user := Some {| PatientId.id := PatientId.PyNone;
                               PatientId.email := PatientId.Missing |};
     PatientId.user_id := Some patient_uuid;
     PatientId.dict_email := None |}.

(** A token payload that only knows the e-mail address. *)
Definition email_token : PatientId.UserDict :=
  {| PatientId.user := None;
     PatientId.user_id := None;
     PatientId.dict_email := Some "ann@example.org" |}.

Definition patients0 : gmap string string :=
  {[ "ann@example.org" := "legacy-17" ]}.

(** A listing that names its page count in camel case only. *)
Definition camel_listing : ApiCalls.PagePayload :=
  {| ApiCalls.page := ApiCalls.Undefined;
     ApiCalls.page_size := ApiCalls.Undefined;
     ApiCalls.pageSize := ApiCalls.Val 10;
     ApiCalls.total_pages := ApiCalls.Undefined;
     ApiCalls.totalPages := ApiCalls.Val 5;
     ApiCalls.total_sessions := ApiCalls.Undefined;
     ApiCalls.totalSessions := ApiCalls.Undefined;
     ApiCalls.sessions := ApiCalls.Val [AssessmentAPI.JNull; AssessmentAPI.JNull];
     ApiCalls.has_next := ApiCalls.Undefined;
     ApiCalls.has_previous := ApiCalls.Undefined |}.

(** The second of five pages, in snake case. *)
Definition second_page : ApiCalls.PagePayload :=
  {| ApiCalls.page := ApiCalls.Val 2;
     ApiCalls.page_size := ApiCalls.Val 10;
     ApiCalls.pageSize := ApiCalls.Undefined;
     ApiCalls.total_pages := ApiCalls.Val 5;
     ApiCalls.totalPages := ApiCalls.Undefined;
     ApiCalls.total_sessions := ApiCalls.Val 42;
     ApiCalls.totalSessions := ApiCalls.Undefined;
     ApiCalls.sessions := ApiCalls.Undefined;
     ApiCalls.has_next := ApiCalls.Undefined;
     ApiCalls.has_previous := ApiCalls.Undefined |}.

(** The page as it is first shown, on a browser that holds one unrelated
    setting. *)
Definition first_page : Wizard.Page :=
  {| Wizard.form := Wizard.initialForm "/dashboard";
     Wizard.storage := {[ "darkMode" := "true" ]};
     Wizard.navigated := None;
     Wizard.toasts := [] |}.

(** A user who fills the two required steps, skips the third and submits;
    the server accepts. *)
Definition diligent : list Wizard.Event :=
  [Wizard.Input "age" "34"; Wizard.Input "city" "Lahore";
   Wizard.Input "country" "Pakistan"; Wizard.Next;
   Wizard.Input "marital_status" "single"; Wizard.Input "occupation" "nurse";
   Wizard.Input "education" "bachelor"; Wizard.Input "employment_status" "employed";
   Wizard.Next; Wizard.Next; Wizard.Submit (Wizard.Saved None)].

(** A user who only presses Next and Previous. *)
Definition impatient : list Wizard.Event :=
  [Wizard.Next; Wizard.Previous; Wizard.Next; Wizard.Next;
   Wizard.Submit (Wizard.Saved None)].

(** An error answer without a body. *)
Definition bodyless : AssessmentAPI.AxiosError :=
  {| AssessmentAPI.response :=
       Some {| AssessmentAPI.status := 502; AssessmentAPI.data := AssessmentAPI.JUndefined |};
     AssessmentAPI.message := AssessmentAPI.JStr "Request failed with status code 502" |}.

(** The page on its last step, the required fields filled. *)
Definition last_step : Wizard.Page :=
  Wizard.run "/dashboard" first_page
    [Wizard.Input "age" "34"; Wizard.Input "city" "Lahore";
     Wizard.Input "country" "Pakistan"; Wizard.Next;
     Wizard.Input "marital_status" "single"; Wizard.Input "occupation" "nurse";
     Wizard.Input "education" "bachelor"; Wizard.Input "employment_status" "employed";
     Wizard.Next; Wizard.Next].

End MoreSamples.

(** * Properties *)

(** ** The questionnaire flag *)

Section QuestionnaireFacts.
Import Questionnaire.

Lemma isQuestionnaireCompleted_spec (localStorage : gmap string string) :
  isQuestionnaireCompleted localStorage = true
  ↔ localStorage !! "questionnaire_completed" = Some "true".
Proof.
  unfold isQuestionnaireCompleted, getItem.
  rewrite bool_decide_eq_true. reflexivity.
Qed.

(** C10. The completion flag round-trips through localStorage: it reads
    true after [markQuestionnaireCompleted], false after
    [resetQuestionnaireStatus], and in general it is true exactly when the
    stored value of 'questionnaire_completed' is the string 'true'. *)
Theorem questionnaire_flag_round_trip (localStorage : gmap string string) :
  isQuestionnaireCompleted (markQuestionnaireCompleted localStorage) = true
  ∧ isQuestionnaireCompleted (resetQuestionnaireStatus localStorage) = false
  ∧ (isQuestionnaireCompleted localStorage = true
     ↔ getItem localStorage "questionnaire_completed" = Some "true").
Proof.
  split; [|split].
  - apply isQuestionnaireCompleted_spec.
    unfold markQuestionnaireCompleted, setItem. apply lookup_insert_eq.
  - apply not_true_is_false. rewrite isQuestionnaireCompleted_spec.
    unfold resetQuestionnaireStatus, removeItem.
    rewrite lookup_delete_eq. discriminate.
  - apply isQuestionnaireCompleted_spec.
Qed.

End QuestionnaireFacts.

(** ** deleteSession *)

Section DeleteSessionFacts.
Import AssessmentAPI Samples.

Lemma deleteSession_404 err sessionId st :
  response_status err = Some 404%Z →
  deleteSession (Rejected err) sessionId st
  = (Return (JObj [("success", JBool true);
                   ("message", JStr "Session not found (already deleted)");
                   ("session_id", sessionId)]),
     {| isLoading := false; error := JNull |}).
Proof.
  intros H. unfold deleteSession.
  rewrite bool_decide_eq_true_2 by exact H. reflexivity.
Qed.

Lemma deleteSession_rethrows err sessionId st :
  response_status err ≠ Some 404%Z →
  fst (deleteSession (Rejected err) sessionId st) = Throw err.
Proof.
  intros H. unfold deleteSession.
  rewrite bool_decide_eq_false_2 by exact H. reflexivity.
Qed.

(** C9. [deleteSession] turns a 404 answer of the delete endpoint into the
    success-like value [{success: true, message: 'Session not found (already
    deleted)', session_id}] and returns it; every other rejection is thrown
    again, unchanged; a resolved request returns the response body. *)
Theorem deleteSession_404_is_success (sessionId : JsValue) (st : HookState) :
  (∀ err, response_status err = Some 404%Z →
     fst (deleteSession (Rejected err) sessionId st)
     = Return (JObj [("success", JBool true);
                     ("message", JStr "Session not found (already deleted)");
                     ("session_id", sessionId)]))
  ∧ (∀ err, response_status err ≠ Some 404%Z →
       fst (deleteSession (Rejected err) sessionId st) = Throw err)
  ∧ (∀ r, fst (deleteSession (Resolved r) sessionId st) = Return (data r)).
Proof.
  split; [|split].
  - intros err H. rewrite deleteSession_404 by exact H. reflexivity.
  - intros err H. apply deleteSession_rethrows, H.
  - intros r. reflexivity.
Qed.

Lemma deleteSession_404_is_success_witness :
  (response_status gone = Some 404%Z
   ∧ fst (deleteSession (Rejected gone) (JStr "s-1") idle)
     = Return (JObj [("success", JBool true);
                     ("message", JStr "Session not found (already deleted)");
                     ("session_id", JStr "s-1")]))
  ∧ (response_status server_down ≠ Some 404%Z
     ∧ fst (deleteSession (Rejected server_down) (JStr "s-1") idle) = Throw server_down).
Proof.
  split.
  - split; [reflexivity|].
    apply (proj1 (deleteSession_404_is_success (JStr "s-1") idle) gone).
    reflexivity.
  - split; [discriminate|].
    apply (proj1 (proj2 (deleteSession_404_is_success (JStr "s-1") idle)) server_down).
    discriminate.
Defined.

End DeleteSessionFacts.

(** ** The session store *)

Section StoreFacts.
Import Assessment Samples.
Local Open Scope Z_scope.

Lemma get_session_state_hit self fault sid s :
  sessions self !! sid = Some s →
  get_session_state self fault sid = (Some s, self).
Proof. intros H. unfold get_session_state. rewrite H. reflexivity. Qed.

Lemma get_session_state_warm self sid d s :
  sessions self !! sid = None →
  db self = Some d →
  session_rows d !! sid = Some s →
  get_session_state self false sid
  = (Some s, {| sessions := <[sid := s]> (sessions self); db := db self |}).
Proof.
  intros Hc Hd Hr. unfold get_session_state, get_session.
  rewrite Hc, Hd, Hr. reflexivity.
Qed.

Lemma get_session_state_absent self fault sid :
  sessions self !! sid = None →
  (∀ d, db self = Some d → session_rows d !! sid = None) →
  get_session_state self fault sid = (None, self).
Proof.
  intros Hc Hd. unfold get_session_state, get_session. rewrite Hc.
  destruct (db self) as [d|]; [|reflexivity].
  destruct fault; [reflexivity|].
  rewrite (Hd d eq_refl). reflexivity.
Qed.

(** Whatever [get_session_state] hands out was in one of the two tiers, and
    sits in the cache when the call returns. *)
Lemma get_session_state_found self fault sid s self' :
  get_session_state self fault sid = (Some s, self') →
  (sessions self !! sid = Some s
   ∨ (sessions self !! sid = None
      ∧ ∃ d, db self = Some d ∧ session_rows d !! sid = Some s))
  ∧ sessions self' !! sid = Some s
  ∧ db self' = db self
  ∧ (∀ k, k ≠ sid → sessions self' !! k = sessions self !! k).
Proof.
  unfold get_session_state, get_session.
  destruct (sessions self !! sid) as [c|] eqn:Hc.
  - intros [= <- <-]. auto.
  - destruct (db self) as [d|] eqn:Hd; [|discriminate].
    destruct fault; [discriminate|].
    destruct (session_rows d !! sid) as [r|] eqn:Hr; [|discriminate].
    intros [= <- <-]. cbn. split; [right; eauto|].
    split; [apply lookup_insert_eq|]. split; [done|].
    intros k Hk. by apply lookup_insert_ne.
Qed.

Lemma get_session_state_none self fault sid o self' :
  get_session_state self fault sid = (o, self') →
  o = None → self' = self.
Proof.
  unfold get_session_state, get_session.
  destruct (sessions self !! sid); [intros [= <- <-]; discriminate|].
  destruct (db self); [|by intros [= <- <-]].
  destruct fault; [by intros [= <- <-]|].
  destruct (session_rows _ !! sid); intros [= <- <-]; [discriminate|done].
Qed.

(** C6. [get_session_state] looks in the cache first and answers from it;
    on a miss it loads from the durable store and, on a hit there, puts the
    session in the cache before returning it; a session in neither tier
    gives [None], with the cache as it was; and a session that is handed out
    always comes from one of the two tiers. *)
Theorem get_session_state_two_tier (self : Moderator) (sid : string) :
  (∀ fault s, sessions self !! sid = Some s →
     get_session_state self fault sid = (Some s, self))
  ∧ (∀ d s, sessions self !! sid = None → db self = Some d →
       session_rows d !! sid = Some s →
       ∃ self', get_session_state self false sid = (Some s, self')
                ∧ sessions self' !! sid = Some s
                ∧ db self' = db self)
  ∧ (∀ fault, sessions self !! sid = None →
       (∀ d, db self = Some d → session_rows d !! sid = None) →
       get_session_state self fault sid = (None, self))
  ∧ (∀ fault s self', get_session_state self fault sid = (Some s, self') →
       sessions self !! sid = Some s
       ∨ ∃ d, db self = Some d ∧ session_rows d !! sid = Some s).
Proof.
  split; [|split; [|split]].
  - intros fault s H. by apply get_session_state_hit.
  - intros d s Hc Hd Hr. eexists.
    split; [exact (get_session_state_warm self sid d s Hc Hd Hr)|].
    cbn. split; [apply lookup_insert_eq|done].
  - intros fault Hc Hd. by apply get_session_state_absent.
  - intros fault s self' H.
    destruct (get_session_state_found _ _ _ _ _ H) as [[Hin|(_ & d & Hd & Hr)] _];
      [by left|right; eauto].
Qed.

Lemma get_session_state_two_tier_witness :
  (sessions moderator0 !! "s-1" = Some fresh
   ∧ get_session_state moderator0 true "s-1" = (Some fresh, moderator0))
  ∧ (sessions cold !! "s-1" = None
     ∧ ∃ self', get_session_state cold false "s-1" = (Some fresh, self')
                ∧ sessions self' !! "s-1" = Some fresh
                ∧ db self' = db cold)
  ∧ (sessions cold !! "s-9" = None
     ∧ get_session_state cold false "s-9" = (None, cold)).
Proof.
  split; [|split].
  - split; [reflexivity|].
    apply (proj1 (get_session_state_two_tier moderator0 "s-1") true fresh).
    reflexivity.
  - split; [reflexivity|].
    apply (proj1 (proj2 (get_session_state_two_tier cold "s-1")) store0 fresh);
      reflexivity.
  - split; [reflexivity|].
    apply (proj1 (proj2 (proj2 (get_session_state_two_tier cold "s-9"))) false).
    + reflexivity.
    + intros d [= <-]. reflexivity.
Defined.

(** *** Optimistic locking *)

Lemma stored_version_Some d sid v :
  stored_version d sid = Some v ↔
  ∃ row, session_rows d !! sid = Some row ∧ version row = v.
Proof.
  unfold stored_version. destruct (session_rows d !! sid) as [row|]; cbn.
  - split; [intros [= <-]; eauto|intros (r & [= <-] & <-); done].
  - split; [discriminate|intros (r & [=] & _)].
Qed.

Lemma update_session_current d s :
  stored_version d (session_id s) = Some (version s) →
  ∃ d', update_session d s = Ok (d', set_version (version s + 1) s)
        ∧ stored_version d' (session_id s) = Some (version s + 1)
        ∧ (∀ k, k ≠ session_id s → session_rows d' !! k = session_rows d !! k).
Proof.
  intros (row & Hrow & Hv)%stored_version_Some.
  unfold update_session. rewrite Hrow.
  rewrite bool_decide_eq_true_2 by exact Hv. cbn.
  eexists. split; [reflexivity|]. split.
  - unfold stored_version. cbn. by rewrite lookup_insert_eq.
  - intros k Hk. cbn. by apply lookup_insert_ne.
Qed.

Lemma update_session_stale d s :
  stored_version d (session_id s) ≠ Some (version s) →
  update_session d s
  = Raise (ConcurrentModificationError "Session was modified by another request").
Proof.
  intros H. unfold update_session, stored_version in *.
  destruct (session_rows d !! session_id s) as [row|]; [|reflexivity].
  cbn in H. rewrite bool_decide_eq_false_2; [reflexivity|].
  intros Hv. apply H. by rewrite Hv.
Qed.

Lemma update_session_inv d s d' s' :
  update_session d s = Ok (d', s') →
  stored_version d (session_id s) = Some (version s)
  ∧ s' = set_version (version s + 1) s
  ∧ stored_version d' (session_id s) = Some (version s + 1).
Proof.
  intros H.
  destruct (decide (stored_version d (session_id s) = Some (version s))) as [Hc|Hc].
  - destruct (update_session_current d s Hc) as (d1 & Hu & Hv & _).
    rewrite Hu in H. injection H as <- <-. auto.
  - rewrite (update_session_stale d s Hc) in H. discriminate.
Qed.

Lemma run_updates_same_version d s1 s2 :
  session_id s2 = session_id s1 →
  version s2 = version s1 →
  stored_version d (session_id s1) = Some (version s1) →
  ∃ d', run_updates d [s1; s2] = ([true; false], d')
        ∧ stored_version d' (session_id s1) = Some (version s1 + 1).
Proof.
  intros Hid Hv Hc.
  destruct (update_session_current d s1 Hc) as (d1 & Hu & Hv1 & _).
  exists d1. cbn [run_updates]. rewrite Hu.
  rewrite update_session_stale; [done|].
  rewrite Hid, Hv, Hv1. intros [= ?]. lia.
Qed.

(** Calls that run one after the other.  A successful [update_session]
    raises the version by exactly one, in the caller's session object and in
    the stored row; a call that presents a version other than the stored one
    raises [ConcurrentModificationError] and writes nothing; and of two
    writers that hold the same version of the same session and call in turn,
    the first succeeds and the second is rejected. *)
Theorem update_session_optimistic_locking (d : Database) (s : SessionState) :
  (∀ d' s', update_session d s = Ok (d', s') →
     stored_version d (session_id s) = Some (version s)
     ∧ version s' = version s + 1
     ∧ stored_version d' (session_id s) = Some (version s + 1))
  ∧ (stored_version d (session_id s) ≠ Some (version s) →
     update_session d s
     = Raise (ConcurrentModificationError "Session was modified by another request"))
  ∧ (∀ s2, session_id s2 = session_id s → version s2 = version s →
       stored_version d (session_id s) = Some (version s) →
       (∃ d', run_updates d [s; s2] = ([true; false], d')
              ∧ stored_version d' (session_id s) = Some (version s + 1))
       ∧ (∃ d', run_updates d [s2; s] = ([true; false], d')
                ∧ stored_version d' (session_id s) = Some (version s + 1))).
Proof.
  split; [|split].
  - intros d' s' H. destruct (update_session_inv _ _ _ _ H) as (Hc & -> & Hv).
    auto.
  - apply update_session_stale.
  - intros s2 Hid Hv Hc. split.
    + by apply run_updates_same_version.
    + destruct (run_updates_same_version d s2 s) as (d' & Hr & Hs);
        [congruence..|].
      exists d'. split; [exact Hr|]. by rewrite <- Hid, <- Hv.
Qed.

Lemma update_session_optimistic_locking_witness :
  (∃ d', update_session store0 fresh = Ok (d', set_version 1 fresh)
         ∧ stored_version d' (session_id fresh) = Some (version fresh + 1))
  ∧ (session_id fresh_other = session_id fresh
     ∧ version fresh_other = version fresh
     ∧ stored_version store0 (session_id fresh) = Some (version fresh)
     ∧ (∃ d', run_updates store0 [fresh; fresh_other] = ([true; false], d')
              ∧ stored_version d' (session_id fresh) = Some (version fresh + 1))
     ∧ (∃ d', run_updates store0 [fresh_other; fresh] = ([true; false], d')
              ∧ stored_version d' (session_id fresh) = Some (version fresh + 1))).
Proof.
  split.
  - eexists. split; [vm_compute; reflexivity|].
    eapply (proj1 (update_session_optimistic_locking store0 fresh)).
    vm_compute; reflexivity.
  - split; [reflexivity|]. split; [reflexivity|]. split; [reflexivity|].
    apply (proj2 (proj2 (update_session_optimistic_locking store0 fresh)) fresh_other);
      reflexivity.
Defined.

End StoreFacts.

(** *** Two calls in flight *)

Section InterleavingFacts.
Import Assessment Samples Interleaving.
Local Open Scope Z_scope.

(** The two steps, taken together, are the call. *)
Lemma update_session_two_steps d s :
  update_session d s
  = match find_row d s with
    | Some existing => Ok (write_row d existing s)
    | None =>
        Raise (ConcurrentModificationError "Session was modified by another request")
    end.
Proof.
  unfold update_session, find_row, write_row.
  destruct (session_rows d !! session_id s) as [row|]; [|reflexivity].
  by case_bool_decide.
Qed.

Lemma find_row_current d s :
  stored_version d (session_id s) = Some (version s) →
  ∃ row, find_row d s = Some row ∧ session_rows d !! session_id s = Some row.
Proof.
  intros (row & Hrow & Hv)%stored_version_Some. exists row.
  unfold find_row. rewrite Hrow. by rewrite bool_decide_eq_true_2.
Qed.

Lemma write_row_version d existing s :
  stored_version (fst (write_row d existing s)) (session_id s)
  = Some (version s + 1)
  ∧ snd (write_row d existing s) = set_version (version s + 1) s.
Proof.
  unfold write_row, stored_version. cbn. by rewrite lookup_insert_eq.
Qed.

Lemma step_pending d s :
  step_call d (Pending s)
  = match find_row d s with
    | Some row => (d, Queried row s)
    | None =>
        (d, Failed (ConcurrentModificationError
                      "Session was modified by another request"))
    end.
Proof. reflexivity. Qed.

Lemma step_queried d row s :
  step_call d (Queried row s)
  = (fst (write_row d row s), Done (set_version (version s + 1) s)).
Proof. reflexivity. Qed.

(** C1. The call does not hold what the claim asks of concurrent callers.
    When two calls that hold the stored version of a session both pass the
    query before either writes, both return: neither raises
    [ConcurrentModificationError], each caller's version is one above the
    start, and so is the stored version, one update being lost.  The same
    two calls with their steps not interleaved end as the claim says, the
    second one rejected. *)
Theorem interleaved_updates_both_succeed (d : Database) (s1 s2 : SessionState) :
  session_id s2 = session_id s1 →
  version s2 = version s1 →
  stored_version d (session_id s1) = Some (version s1) →
  (∃ d', interleave d (Pending s1) (Pending s2) [true; false; true; false]
         = (d', Done (set_version (version s1 + 1) s1),
            Done (set_version (version s2 + 1) s2))
         ∧ stored_version d' (session_id s1) = Some (version s1 + 1))
  ∧ (∃ d', interleave d (Pending s1) (Pending s2) [true; true; false; false]
           = (d', Done (set_version (version s1 + 1) s1),
              Failed (ConcurrentModificationError
                        "Session was modified by another request"))
           ∧ stored_version d' (session_id s1) = Some (version s1 + 1)).
Proof.
  intros Hid Hv Hc.
  destruct (find_row_current d s1 Hc) as (row & Hf1 & Hrow).
  assert (find_row d s2 = Some row) as Hf2.
  { unfold find_row in *. by rewrite Hid, Hv. }
  split.
  - cbn [interleave].
    rewrite step_pending, Hf1. cbv beta iota.
    rewrite step_pending, Hf2. cbv beta iota.
    rewrite step_queried. cbv beta iota.
    rewrite step_queried. cbv beta iota.
    eexists. split; [reflexivity|].
    rewrite <- Hid, <- Hv. apply write_row_version.
  - cbn [interleave].
    rewrite step_pending, Hf1. cbv beta iota.
    rewrite step_queried. cbv beta iota.
    destruct (write_row_version d row s1) as [Hv1 _].
    assert (find_row (fst (write_row d row s1)) s2 = None) as Hnone.
    { apply stored_version_Some in Hv1 as (row1 & Hrow1 & Hver).
      unfold find_row. rewrite Hid, Hrow1.
      rewrite bool_decide_eq_false_2; [done|]. rewrite Hver, Hv. lia. }
    rewrite step_pending, Hnone. cbv beta iota. cbn [step_call].
    eexists. split; [reflexivity|exact Hv1].
Qed.

Lemma interleaved_updates_both_succeed_witness :
  session_id fresh_other = session_id fresh
  ∧ version fresh_other = version fresh
  ∧ stored_version store0 (session_id fresh) = Some (version fresh)
  ∧ ∃ d', interleave store0 (Pending fresh) (Pending fresh_other)
            [true; false; true; false]
          = (d', Done (set_version 1 fresh), Done (set_version 1 fresh_other))
          ∧ stored_version d' "s-1" = Some 1.
Proof.
  split; [reflexivity|]. split; [reflexivity|]. split; [reflexivity|].
  exact (proj1 (interleaved_updates_both_succeed store0 fresh fresh_other
                  eq_refl eq_refl eq_refl)).
Defined.

End InterleavingFacts.

(** ** Prerequisites of the synthesis stages *)

Section PrerequisiteFacts.
Import Assessment Samples.

Lemma truthy_payload_true (o : option Payload) :
  truthy_payload o = true ↔ ∃ r, o = Some r ∧ r ≠ ∅.
Proof.
  destruct o as [r|]; cbn.
  - rewrite negb_true_iff, bool_decide_eq_false. split.
    + intros H. eauto.
    + intros (r' & [= <-] & H). exact H.
  - split; [discriminate|intros (r & [=] & _)].
Qed.

Lemma in_history_true module_name session_state :
  in_history module_name session_state = true
  ↔ module_name ∈ module_history session_state.
Proof. unfold in_history. apply bool_decide_eq_true. Qed.

Lemma step_done session_state module_name :
  negb (in_history module_name session_state) = false
  ∧ negb (truthy_payload (module_results session_state !! module_name)) = false
  ↔ done_in session_state module_name.
Proof.
  unfold done_in. rewrite !negb_false_iff, in_history_true, truthy_payload_true.
  reflexivity.
Qed.

Lemma _should_run_da_true diagnostic_modules session_state :
  _should_run_da diagnostic_modules session_state = true
  ↔ ∀ m, m ∈ diagnostic_modules → done_in session_state m.
Proof.
  induction diagnostic_modules as [|x rest IH]; cbn [_should_run_da].
  - split; [|done]. intros _ m Hm. by apply elem_of_nil in Hm.
  - pose proof (step_done session_state x) as Hx.
    destruct (negb (in_history x session_state)).
    { split; [discriminate|]. intros H.
      assert (done_in session_state x) as Hd by (apply H; left).
      apply Hx in Hd. destruct Hd; discriminate. }
    destruct (negb (truthy_payload (module_results session_state !! x))).
    { split; [discriminate|]. intros H.
      assert (done_in session_state x) as Hd by (apply H; left).
      apply Hx in Hd. destruct Hd; discriminate. }
    rewrite IH. split.
    + intros H m [->|Hm]%elem_of_cons; [by apply Hx|by apply H].
    + intros H m Hm. apply H. by right.
Qed.

Lemma _should_run_tpa_true session_state :
  _should_run_tpa session_state = true
  ↔ done_in session_state "da_diagnostic_analysis".
Proof.
  unfold _should_run_tpa, done_in.
  rewrite andb_true_iff, in_history_true, truthy_payload_true. reflexivity.
Qed.

Lemma _should_run_da_snapshot diagnostic_modules s1 s2 :
  module_history s1 = module_history s2 →
  module_results s1 = module_results s2 →
  _should_run_da diagnostic_modules s1 = _should_run_da diagnostic_modules s2.
Proof.
  intros Hh Hr. induction diagnostic_modules as [|x rest IH]; [done|].
  cbn [_should_run_da]. unfold in_history. by rewrite Hh, Hr, IH.
Qed.

(** C4. The prerequisite checks are functions of the session snapshot
    alone (its history and its results).  [_should_run_da] is true exactly
    when every required module is in [module_history] and has a non-empty
    entry in [module_results]; [_should_run_tpa] is true exactly when this
    holds of the diagnostic analysis.  So with the diagnostic analysis in the
    history, [_should_run_tpa] is false while it has no entry in
    [module_results], and true once a non-empty entry is there. *)
Theorem prerequisites_need_history_and_results
    (diagnostic_modules : list string) (s : SessionState) :
  (_should_run_da diagnostic_modules s = true
   ↔ ∀ m, m ∈ diagnostic_modules →
          m ∈ module_history s ∧ ∃ r, module_results s !! m = Some r ∧ r ≠ ∅)
  ∧ (_should_run_tpa s = true
     ↔ "da_diagnostic_analysis" ∈ module_history s
       ∧ ∃ r, module_results s !! "da_diagnostic_analysis" = Some r ∧ r ≠ ∅)
  ∧ ("da_diagnostic_analysis" ∈ module_history s →
     (module_results s !! "da_diagnostic_analysis" = None →
      _should_run_tpa s = false)
     ∧ (∀ r, r ≠ ∅ →
          _should_run_tpa
            (set_module_results (<["da_diagnostic_analysis" := r]> (module_results s)) s)
          = true))
  ∧ (∀ s', module_history s' = module_history s →
           module_results s' = module_results s →
           _should_run_da diagnostic_modules s' = _should_run_da diagnostic_modules s
           ∧ _should_run_tpa s' = _should_run_tpa s).
Proof.
  split; [apply _should_run_da_true|].
  split; [apply _should_run_tpa_true|].
  split.
  - intros Hh. split.
    + intros Hn. apply not_true_is_false. rewrite _should_run_tpa_true.
      intros (_ & r & Hr & _). congruence.
    + intros r Hr. apply _should_run_tpa_true. split; [exact Hh|].
      exists r. cbn. by rewrite lookup_insert_eq.
  - intros s' Hh Hr. split; [by apply _should_run_da_snapshot|].
    unfold _should_run_tpa, in_history. by rewrite Hh, Hr.
Qed.

Lemma prerequisites_need_history_and_results_witness :
  "da_diagnostic_analysis" ∈ module_history da_attempted
  ∧ module_results da_attempted !! "da_diagnostic_analysis" = None
  ∧ _should_run_tpa da_attempted = false
  ∧ phq9_result ≠ ∅
  ∧ _should_run_tpa
      (set_module_results
         (<["da_diagnostic_analysis" := phq9_result]> (module_results da_attempted))
         da_attempted) = true.
Proof.
  assert ("da_diagnostic_analysis" ∈ module_history da_attempted) as Hh
    by (right; left).
  assert (phq9_result ≠ ∅) as Hne by discriminate.
  pose proof (proj1 (proj2 (proj2
    (prerequisites_need_history_and_results ["phq9"] da_attempted))) Hh) as [Hno Hyes].
  split; [exact Hh|]. split; [reflexivity|].
  split; [apply Hno; reflexivity|].
  split; [exact Hne|]. apply Hyes, Hne.
Defined.

End PrerequisiteFacts.

(** ** The moderator *)

Section ModeratorFacts.
Import Assessment Samples.
Local Open Scope Z_scope.

Lemma validate_session_ownership_true session_state user_id :
  validate_session_ownership session_state user_id = true
  ↔ patient_id session_state = Some user_id ∧ user_id ≠ "".
Proof.
  unfold validate_session_ownership, owner_matches, truthy_str.
  destruct (patient_id session_state) as [o|]; cbn.
  - destruct (String.eqb_spec o "") as [->|Hne]; cbn.
    + split; [discriminate|]. intros [[= <-] H]. by destruct H.
    + rewrite bool_decide_eq_true. split.
      * intros [= ->]. done.
      * intros [H _]. exact H.
  - split; [discriminate|]. intros [[=] _].
Qed.

Lemma validate_session_ownership_denies session_state user_id :
  truthy_str (patient_id session_state) = false
  ∨ patient_id session_state ≠ Some user_id →
  validate_session_ownership session_state user_id = false.
Proof.
  intros H. apply not_true_is_false.
  rewrite validate_session_ownership_true. intros [Ho Hne].
  destruct H as [H|H]; [|done].
  rewrite Ho in H. cbn in H. apply negb_false_iff in H.
  apply String.eqb_eq in H. done.
Qed.

(** C3. Once the session is loaded, [process_message] raises the 403
    "Access denied" error whenever the session has no owner (unset or
    empty) or its owner differs from the caller: the ownership check grants
    access only to the caller who equals a non-empty owner, and no result is
    returned otherwise. *)
Theorem process_message_checks_owner (self : Moderator) (env : TurnEnv)
    (user_id sid message : string) (s : SessionState) (self1 : Moderator) :
  get_session_state self (load_fault env) sid = (Some s, self1) →
  truthy_str (patient_id s) = false ∨ patient_id s ≠ Some user_id →
  validate_session_ownership s user_id = false
  ∧ process_message self env user_id sid message
    = (Raise (HTTPException 403 "Access denied to this session"), self1).
Proof.
  intros Hget Hown.
  pose proof (validate_session_ownership_denies s user_id Hown) as Hv.
  split; [exact Hv|].
  unfold process_message. rewrite Hget, Hv. reflexivity.
Qed.

Lemma process_message_checks_owner_witness :
  process_message tainted good_turn "u1" "s-2" "hello"
  = (Raise (HTTPException 403 "Access denied to this session"), tainted)
  ∧ process_message moderator0 good_turn "u2" "s-1" "hello"
    = (Raise (HTTPException 403 "Access denied to this session"), moderator0).
Proof.
  split.
  - apply (process_message_checks_owner tainted good_turn "u1" "s-2" "hello"
             ownerless tainted); [reflexivity|left; reflexivity].
  - apply (process_message_checks_owner moderator0 good_turn "u2" "s-1" "hello"
             fresh moderator0); [reflexivity|right; discriminate].
Defined.

(** *** Completion handling *)

Lemma existing_results (mr : gmap string Payload) :
  (if negb (truthy_dict mr) then ∅ else mr) = mr.
Proof.
  unfold truthy_dict. rewrite negb_involutive.
  case_bool_decide; congruence.
Qed.

Lemma truthy_payload_Some (r : Payload) : r ≠ ∅ → truthy_payload (Some r) = true.
Proof. intros H. cbn. by rewrite bool_decide_eq_false_2. Qed.

Ltac run_py :=
  unfold on_module_complete, store_and_persist, try_except,
    call_get_results, record_results, persist_results,
    _mark_module_completed, store_module_results;
  unfold bind, ret.


Lemma store_and_persist_get_raises m fault sid name w e :
  has_get_results m = true → get_results m = Raise e →
  store_and_persist m fault sid name w = (Raise e, w).
Proof. intros H He; run_py. by rewrite H, He. Qed.

Lemma store_and_persist_results m fault sid name w r :
  has_get_results m = true → get_results m = Ok (Some r) → r ≠ ∅ →
  store_and_persist m fault sid name w
  = persist_results fault sid name r
      {| state := set_module_results (<[name := r]> (module_results (state w))) (state w);
         durable := durable w |}.
Proof.
  intros H Hr Hne; run_py.
  rewrite H, Hr. cbn beta iota.
  rewrite (truthy_payload_Some r Hne), existing_results. reflexivity.
Qed.

Lemma on_module_complete_returns_early m fault sid name w e w' :
  store_and_persist m fault sid name w = (Raise e, w') →
  on_module_complete m fault sid name w
  = (Ok (Some "Error saving module results. Please try again."), w').
Proof.
  intros H. unfold on_module_complete, try_except, bind at 1.
  unfold bind at 1. rewrite H. reflexivity.
Qed.

Lemma on_module_complete_marks m fault sid name w w' :
  store_and_persist m fault sid name w = (Ok tt, w') →
  on_module_complete m fault sid name w
  = (Ok None,
     {| state := set_module_history (module_history (state w') ++ [name]) (state w');
        durable := durable w' |}).
Proof.
  intros H. unfold on_module_complete, try_except, bind at 1.
  unfold bind at 1. rewrite H. reflexivity.
Qed.

(** The [try] block writes neither the history nor the session rows, nor
    the fields that identify the session. *)
Lemma store_and_persist_frame m fault sid name w r w' :
  store_and_persist m fault sid name w = (r, w') →
  module_history (state w') = module_history (state w)
  ∧ current_module (state w') = current_module (state w)
  ∧ session_rows <$> durable w' = session_rows <$> durable w.
Proof.
  run_py. destruct (has_get_results m); [|by intros [= <- <-]].
  destruct (get_results m) as [[p|]|e]; cbn beta iota;
    [|by intros [= <- <-]..].
  destruct (truthy_payload (Some p)); [|by intros [= <- <-]].
  cbn. destruct (durable w) as [d|]; [|by intros [= <- <-]].
  destruct fault; by intros [= <- <-].
Qed.

Lemma persistence_fails_raises m fault sid name w :
  persistence_fails m fault (durable w) →
  ∃ e w', store_and_persist m fault sid name w = (Raise e, w')
          ∧ durable w' = durable w.
Proof.
  intros [Hh [[e He]|(r & Hr & Hne & -> & [d Hd])]].
  - exists e, w. by rewrite (store_and_persist_get_raises _ _ _ _ _ e Hh He).
  - rewrite (store_and_persist_results _ _ _ _ _ r Hh Hr Hne).
    unfold persist_results, store_module_results. cbn. rewrite Hd.
    eexists _, _. split; [reflexivity|]. cbn. done.
Qed.

Lemma results_persisted m fault sid name w r :
  has_get_results m = true → get_results m = Ok (Some r) → r ≠ ∅ →
  durable w = None ∨ fault = false →
  ∃ w', store_and_persist m fault sid name w = (Ok tt, w')
        ∧ module_results (state w') !! name = Some r
        ∧ (∀ d, durable w = Some d →
             ∃ d', durable w' = Some d'
                   ∧ result_rows d' !! (sid, name) = Some r).
Proof.
  intros Hh Hr Hne Hok.
  rewrite (store_and_persist_results _ _ _ _ _ r Hh Hr Hne).
  unfold persist_results, store_module_results. cbn.
  destruct (durable w) as [d|] eqn:Hd.
  - destruct Hok as [Hno | ->]; [discriminate|].
    eexists. split; [reflexivity|]. cbn.
    split; [apply lookup_insert_eq|].
    intros d0 [= <-]. eexists. split; [reflexivity|]. cbn.
    apply lookup_insert_eq.
  - eexists. split; [reflexivity|]. cbn.
    split; [apply lookup_insert_eq|]. intros d0 [=].
Qed.

(** How the completion handling ends: it never raises; it either returns
    early with the history as it was, or marks the module. *)
Lemma on_module_complete_history m fault sid name w :
  ∃ early w', on_module_complete m fault sid name w = (Ok early, w')
    ∧ module_history (state w')
      = (module_history (state w)
         ++ match early with Some _ => [] | None => [name] end)%list
    ∧ current_module (state w') = current_module (state w)
    ∧ session_rows <$> durable w' = session_rows <$> durable w.
Proof.
  destruct (store_and_persist m fault sid name w) as [[[]|e] w1] eqn:H;
    destruct (store_and_persist_frame _ _ _ _ _ _ _ H) as (Hh & Hc & Hr).
  - rewrite (on_module_complete_marks _ _ _ _ _ _ H).
    eexists _, _. split; [reflexivity|]. cbn. by rewrite Hh.
  - rewrite (on_module_complete_returns_early _ _ _ _ _ _ _ H).
    eexists _, _. split; [reflexivity|]. cbn. by rewrite app_nil_r.
Qed.




(** *** Sessions are never created by a turn *)

Lemma get_session_state_known self fault sid o self1 :
  get_session_state self fault sid = (o, self1) →
  db self1 = db self
  ∧ ∀ k, is_Some (sessions self1 !! k) →
         is_Some (sessions self !! k)
         ∨ ∃ d, db self = Some d ∧ is_Some (session_rows d !! k).
Proof.
  intros H. destruct o as [s|].
  - destruct (get_session_state_found _ _ _ _ _ H) as (Hsrc & Hin & Hdb & Hoth).
    split; [exact Hdb|]. intros k Hk.
    destruct (decide (k = sid)) as [-> | Hne].
    + destruct Hsrc as [Hc|(_ & d & Hd & Hr)]; [left|right]; eauto.
    + left. by rewrite <- (Hoth k Hne).
  - rewrite (get_session_state_none _ _ _ _ _ H eq_refl). auto.
Qed.

(** C5. A turn for a session identifier that is in neither tier of the
    store raises the 404 "Session not found" error and creates nothing: the
    cache and the store are as they were. *)
Theorem process_message_never_creates (self : Moderator) (env : TurnEnv)
    (user_id sid message : string) :
  sessions self !! sid = None →
  (∀ d, db self = Some d → session_rows d !! sid = None) →
  process_message self env user_id sid message
  = (Raise (HTTPException 404
              "Session not found. Please start a new assessment session first."),
     self).
Proof.
  intros Hc Hd. unfold process_message.
  rewrite (get_session_state_absent self (load_fault env) sid Hc Hd).
  reflexivity.
Qed.

Lemma process_message_never_creates_witness :
  sessions cold !! "s-9" = None
  ∧ process_message cold good_turn "u1" "s-9" "hello"
    = (Raise (HTTPException 404
                "Session not found. Please start a new assessment session first."),
       cold).
Proof.
  split; [reflexivity|].
  apply (process_message_never_creates cold good_turn "u1" "s-9" "hello").
  - reflexivity.
  - intros d [= <-]. reflexivity.
Defined.

(** *** The history over several completions *)

Lemma persistence_failsb_true m fault store :
  persistence_failsb m fault store = true ↔ persistence_fails m fault store.
Proof.
  unfold persistence_failsb, persistence_fails.
  rewrite andb_true_iff. apply and_iff_compat_l.
  destruct (get_results m) as [o|e].
  - rewrite !andb_true_iff, truthy_payload_true, bool_decide_eq_true. split.
    + intros [[(r & -> & Hne) Hf] Hs]. right. exists r. done.
    + intros [[e [=]]|(r & [= ->] & Hne & Hf & Hs)]. eauto.
  - split; [eauto|done].
Qed.

Lemma store_and_persist_outcome m fault sid name w :
  match fst (store_and_persist m fault sid name w) with
  | Ok _ => persistence_failsb m fault (durable w) = false
  | Raise _ => persistence_failsb m fault (durable w) = true
  end.
Proof.
  unfold persistence_failsb. run_py.
  destruct (has_get_results m); [|done].
  destruct (get_results m) as [[p|]|e]; cbn beta iota; [|done..].
  destruct (truthy_payload (Some p)); [|done]. cbn.
  destruct (durable w) as [d|]; [|by rewrite andb_false_r].
  destruct fault; cbn; done.
Qed.

Lemma persistence_failsb_store m fault (o1 o2 : option Database) :
  session_rows <$> o1 = session_rows <$> o2 →
  persistence_failsb m fault o1 = persistence_failsb m fault o2.
Proof.
  intros H. unfold persistence_failsb.
  destruct o1, o2; try discriminate H; reflexivity.
Qed.

(** One turn: the module is appended exactly when its result was not
    refused. *)
Lemma complete_turn_history sid c w :
  ∃ early w', complete_turn sid c w = (Ok early, w')
    ∧ module_history (state w')
      = (module_history (state w) ++ (completed_module <$> persisted (durable w) [c]))%list
    ∧ session_rows <$> durable w' = session_rows <$> durable w.
Proof.
  unfold complete_turn, persisted. cbn [List.filter].
  pose proof (store_and_persist_outcome (module_report c) (write_fault c) sid
                (completed_module c) w) as Hout.
  destruct (store_and_persist (module_report c) (write_fault c) sid
              (completed_module c) w) as [[[]|e] w1] eqn:H;
    destruct (store_and_persist_frame _ _ _ _ _ _ _ H) as (Hh & _ & Hr);
    cbn in Hout; rewrite Hout; cbn.
  - rewrite (on_module_complete_marks _ _ _ _ _ _ H).
    eexists _, _. split; [reflexivity|]. cbn. by rewrite Hh.
  - rewrite (on_module_complete_returns_early _ _ _ _ _ _ _ H).
    eexists _, _. split; [reflexivity|]. by rewrite app_nil_r.
Qed.

Lemma persisted_store (o1 o2 : option Database) turns :
  session_rows <$> o1 = session_rows <$> o2 →
  persisted o1 turns = persisted o2 turns.
Proof.
  intros H. unfold persisted. induction turns as [|c rest IH]; [done|].
  cbn [List.filter]. by rewrite IH, (persistence_failsb_store _ _ o1 o2 H).
Qed.

Lemma run_completions_history sid turns : ∀ w,
  module_history (state (run_completions sid w turns))
  = (module_history (state w) ++ (completed_module <$> persisted (durable w) turns))%list.
Proof.
  induction turns as [|c rest IH]; intros w; cbn [run_completions].
  - cbn. by rewrite app_nil_r.
  - destruct (complete_turn_history sid c w) as (early & w' & Ho & Hh & Hr).
    rewrite Ho. cbn [snd]. rewrite IH, Hh, (persisted_store _ _ rest Hr).
    rewrite <- app_assoc, <- fmap_app. do 2 f_equal.
    unfold persisted. cbn [List.filter]. by destruct (negb _).
Qed.

Lemma recorded_result_covers w name r :
  history_has_results w → r ≠ ∅ →
  ∀ m, m ∈ module_history (state w) ∨ m = name →
       truthy_payload (<[name := r]> (module_results (state w)) !! m) = true.
Proof.
  intros Hinv Hne m Hm. destruct (decide (name = m)) as [<- | Hnm].
  - rewrite lookup_insert_eq. by apply truthy_payload_Some.
  - rewrite lookup_insert_ne by exact Hnm.
    destruct Hm as [Hm | ->]; [by apply Hinv|done].
Qed.

Lemma complete_turn_keeps_results sid c w :
  yields_results c → history_has_results w →
  history_has_results (snd (complete_turn sid c w)).
Proof.
  intros [Hh Hy] Hinv. unfold complete_turn.
  destruct (get_results (module_report c)) as [o|e] eqn:Hg.
  - destruct (proj1 (truthy_payload_true o) (Hy o eq_refl)) as (r & -> & Hne).
    pose proof (store_and_persist_results (module_report c) (write_fault c) sid
                  (completed_module c) w r Hh Hg Hne) as Hs.
    destruct (persist_results (write_fault c) sid (completed_module c) r _)
      as [[[]|e] w1] eqn:Hp.
    + rewrite (on_module_complete_marks _ _ _ _ _ _ Hs).
      revert Hp. unfold persist_results, store_module_results. cbn.
      destruct (durable w); [destruct (write_fault c)|];
        intros [= <-]; intros m; cbn; rewrite elem_of_app, list_elem_of_singleton;
        by apply recorded_result_covers.
    + rewrite (on_module_complete_returns_early _ _ _ _ _ _ _ Hs).
      revert Hp. unfold persist_results, store_module_results. cbn.
      destruct (durable w); [destruct (write_fault c)|];
        intros [= <- <-]; intros m Hm; cbn;
        apply recorded_result_covers; auto.
  - rewrite (on_module_complete_returns_early _ _ _ _ _ _ _
               (store_and_persist_get_raises _ _ _ _ _ e Hh Hg)).
    exact Hinv.
Qed.

Lemma run_completions_keeps_results sid turns : ∀ w,
  Forall yields_results turns → history_has_results w →
  history_has_results (run_completions sid w turns).
Proof.
  induction turns as [|c rest IH]; intros w Hall Hinv; [exact Hinv|].
  apply Forall_cons in Hall as [Hc Hrest]. cbn [run_completions].
  apply IH; [exact Hrest|]. by apply complete_turn_keeps_results.
Qed.

(** C7 (amended). Over any run of completion turns of a session the history
    only grows at its end: it is the history at the start followed by the
    modules that completed and whose result was not refused, in the order of
    the turns.  As long as every completing module hands out a non-empty
    result, every module of the history has a non-empty entry in
    [module_results]. *)
Theorem module_history_appends_completed (sid : string) (w : World)
    (turns : list Completion) :
  module_history (state (run_completions sid w turns))
  = (module_history (state w) ++ (completed_module <$> persisted (durable w) turns))%list
  ∧ (Forall yields_results turns → history_has_results w →
     history_has_results (run_completions sid w turns)).
Proof.
  split; [apply run_completions_history|apply run_completions_keeps_results].
Qed.

Lemma module_history_appends_completed_witness :
  Forall yields_results [phq9_refused; phq9_done]
  ∧ history_has_results world0
  ∧ module_history (state (run_completions "s-1" world0 [phq9_refused; phq9_done]))
    = ["phq9"]
  ∧ history_has_results (run_completions "s-1" world0 [phq9_refused; phq9_done]).
Proof.
  assert (∀ fault, yields_results
            {| completed_module := "phq9"; module_report := completes;
               write_fault := fault |}) as Hy.
  { intros fault. split; [reflexivity|]. intros o [= <-]. reflexivity. }
  assert (Forall yields_results [phq9_refused; phq9_done]) as Hall.
  { repeat constructor; apply Hy. }
  assert (history_has_results world0) as H0.
  { intros m Hm. cbn in Hm. by apply elem_of_nil in Hm. }
  pose proof (module_history_appends_completed "s-1" world0
                [phq9_refused; phq9_done]) as [Hh Hinv].
  split; [exact Hall|]. split; [exact H0|].
  split; [exact Hh|exact (Hinv Hall H0)].
Defined.

(** C7, as stated, fails: a module that completes without a result is
    appended to the history although [module_results] has no entry for it. *)
Lemma history_without_result :
  fst (process_message moderator0 empty_turn "u1" "s-1" "often")
  = Ok "Let us move on."
  ∧ module_history <$>
      sessions (snd (process_message moderator0 empty_turn "u1" "s-1" "often")) !! "s-1"
    = Some ["phq9"]
  ∧ (sessions (snd (process_message moderator0 empty_turn "u1" "s-1" "often")) !! "s-1"
     ≫= λ s, module_results s !! "phq9") = None.
Proof.
  split; [vm_compute; reflexivity|].
  split; vm_compute; reflexivity.
Qed.

End ModeratorFacts.

(** * Further properties of the code *)

(** ** The store: updates in a row *)

Section UpdateFacts.
Import Assessment Samples Persistence.
Local Open Scope Z_scope.

Lemma run_updates_all_stale d ws :
  Forall (λ w, stored_version d (session_id w) ≠ Some (version w)) ws →
  run_updates d ws = (repeat false (length ws), d).
Proof.
  induction 1 as [|w ws Hw _ IH]; [reflexivity|].
  cbn [run_updates]. rewrite (update_session_stale d w Hw), IH. reflexivity.
Qed.

(** X2. Of any number of writers that hold the stored version of a session
    and call [update_session] one after the other, only the first one
    succeeds; all the others are rejected and the stored version ends one
    above the start. *)
Theorem only_first_writer_wins (d : Database) (w : SessionState)
    (ws : list SessionState) :
  stored_version d (session_id w) = Some (version w) →
  Forall (λ x, session_id x = session_id w ∧ version x = version w) ws →
  ∃ d', run_updates d (w :: ws) = (true :: repeat false (length ws), d')
        ∧ stored_version d' (session_id w) = Some (version w + 1).
Proof.
  intros Hc Hall.
  destruct (update_session_current d w Hc) as (d1 & Hu & Hv & _).
  exists d1. cbn [run_updates]. rewrite Hu.
  rewrite run_updates_all_stale; [done|].
  eapply Forall_impl; [exact Hall|].
  intros x [Hid Hx]. cbn. rewrite Hid, Hx, Hv. intros [= ?]. lia.
Qed.

Lemma only_first_writer_wins_witness :
  ∃ d', run_updates store0 [fresh; fresh_other; fresh; fresh_other]
        = ([true; false; false; false], d')
        ∧ stored_version d' "s-1" = Some 1.
Proof.
  apply (only_first_writer_wins store0 fresh [fresh_other; fresh; fresh_other]).
  - reflexivity.
  - repeat constructor.
Defined.

(** X3. A caller that goes on with the session object [update_session]
    handed back is never rejected: n updates in a row all succeed, and the
    caller's and the stored version both end n above the start. *)
Theorem update_repeatedly_counts (n : nat) : ∀ (d : Database) (s : SessionState),
  stored_version d (session_id s) = Some (version s) →
  ∃ d', update_repeatedly n d s = Ok (d', set_version (version s + Z.of_nat n) s)
        ∧ stored_version d' (session_id s) = Some (version s + Z.of_nat n).
Proof.
  induction n as [|n IH]; intros d s Hc.
  - exists d. cbn [update_repeatedly]. rewrite Z.add_0_r.
    split; [|exact Hc]. by destruct s.
  - destruct (update_session_current d s Hc) as (d1 & Hu & Hv & _).
    cbn [update_repeatedly]. rewrite Hu.
    destruct (IH d1 (set_version (version s + 1) s)) as (d2 & Hr & Hv2);
      [exact Hv|].
    exists d2. cbn in Hr, Hv2.
    replace (version s + Z.of_nat (S n)) with (version s + 1 + Z.of_nat n) by lia.
    split; [|exact Hv2]. rewrite Hr. reflexivity.
Qed.

Lemma update_repeatedly_counts_witness :
  ∃ d', update_repeatedly 3 store0 fresh = Ok (d', set_version 3 fresh)
        ∧ stored_version d' "s-1" = Some 3.
Proof.
  apply (update_repeatedly_counts 3 store0 fresh). reflexivity.
Defined.

(** X4. Behind the step 2.2 wrapper every failure of [update_session],
    the version conflict included, reaches the caller as the same HTTP 500
    "Failed to save session data"; a [ConcurrentModificationError] never
    gets through; a successful update is passed on unchanged. *)
Theorem persist_or_500_hides_conflicts (d : Database) (s : SessionState) :
  (stored_version d (session_id s) ≠ Some (version s) →
   persist_or_500 d s
   = Raise (HTTPException 500 "Failed to save session data. Please try again."))
  ∧ (∀ msg, persist_or_500 d s ≠ Raise (ConcurrentModificationError msg))
  ∧ (stored_version d (session_id s) = Some (version s) →
     persist_or_500 d s = update_session d s
     ∧ ∃ r, persist_or_500 d s = Ok r).
Proof.
  unfold persist_or_500. split; [|split].
  - intros H. by rewrite (update_session_stale d s H).
  - intros msg. by destruct (update_session d s).
  - intros H. destruct (update_session_current d s H) as (d' & Hu & _).
    rewrite Hu. eauto.
Qed.

Lemma persist_or_500_hides_conflicts_witness :
  persist_or_500 store0 (set_version 7 fresh)
  = Raise (HTTPException 500 "Failed to save session data. Please try again.")
  ∧ ∃ r, persist_or_500 store0 fresh = Ok r.
Proof.
  split.
  - apply (proj1 (persist_or_500_hides_conflicts store0 (set_version 7 fresh))).
    discriminate.
  - apply (proj2 (proj2 (persist_or_500_hides_conflicts store0 fresh))).
    reflexivity.
Defined.

(** X5. The unversioned [update_session] of step 1.4 does not create a row
    for an unknown session (it answers [False] and leaves the store as it
    was), and it does not detect conflicting writers: two updates of the
    same session both answer [True] and the second one overwrites the first,
    the store ending as if only the second had run. *)
Theorem unversioned_update_last_writer_wins (d : Database) (s1 s2 : SessionState) :
  (session_rows d !! session_id s1 = None →
   Step14.update_session d false s1 = (Ok false, d))
  ∧ (session_id s2 = session_id s1 →
     is_Some (session_rows d !! session_id s1) →
     fst (Step14.update_session d false s1) = Ok true
     ∧ Step14.update_session (snd (Step14.update_session d false s1)) false s2
       = Step14.update_session d false s2
     ∧ fst (Step14.update_session d false s2) = Ok true).
Proof.
  unfold Step14.update_session. split.
  - intros H. by rewrite H.
  - intros Hid [row Hrow]. rewrite Hid, Hrow. cbn.
    rewrite lookup_insert_eq. cbn. rewrite insert_insert_eq. done.
Qed.

Lemma unversioned_update_last_writer_wins_witness :
  Step14.update_session store0 false ownerless = (Ok false, store0)
  ∧ fst (Step14.update_session store0 false fresh) = Ok true
  ∧ Step14.update_session (snd (Step14.update_session store0 false fresh)) false fresh_other
    = Step14.update_session store0 false fresh_other.
Proof.
  split.
  - apply (proj1 (unversioned_update_last_writer_wins store0 ownerless fresh)).
    reflexivity.
  - pose proof (proj2 (unversioned_update_last_writer_wins store0 fresh fresh_other)
                  eq_refl (ex_intro _ fresh eq_refl)) as (H1 & H2 & _).
    split; [exact H1|exact H2].
Defined.

End UpdateFacts.

(** ** The moderator: loading and checking *)

Section TurnFacts.
Import Assessment Samples MoreSamples.
Local Open Scope Z_scope.

(** X6. When the store raises while a session that is not cached is loaded,
    [process_message] answers 404 "Session not found" although the session
    may well be stored; nothing is cached. *)
Theorem store_outage_reads_as_not_found (self : Moderator) (env : TurnEnv)
    (user_id sid message : string) :
  sessions self !! sid = None →
  load_fault env = true →
  process_message self env user_id sid message
  = (Raise (HTTPException 404
              "Session not found. Please start a new assessment session first."),
     self).
Proof.
  intros Hc Hf. unfold process_message, get_session_state, get_session.
  rewrite Hc, Hf. by destruct (db self).
Qed.

Lemma store_outage_reads_as_not_found_witness :
  (∃ d, db cold = Some d ∧ session_rows d !! "s-1" = Some fresh)
  ∧ process_message cold outage_turn "u1" "s-1" "hello"
    = (Raise (HTTPException 404
                "Session not found. Please start a new assessment session first."),
       cold).
Proof.
  split; [exists store0; split; reflexivity|].
  apply (store_outage_reads_as_not_found cold outage_turn "u1" "s-1" "hello");
    reflexivity.
Defined.

(** X7. The owner is checked after the session is loaded: a caller who
    does not own a stored, uncached session gets the 403 error, and the
    session is left in the cache by the refused call. *)
Theorem refused_caller_warms_cache (self : Moderator) (env : TurnEnv)
    (user_id sid message : string) (d : Database) (s : SessionState) :
  sessions self !! sid = None →
  db self = Some d →
  session_rows d !! sid = Some s →
  load_fault env = false →
  validate_session_ownership s user_id = false →
  process_message self env user_id sid message
  = (Raise (HTTPException 403 "Access denied to this session"),
     {| sessions := <[sid := s]> (sessions self); db := db self |}).
Proof.
  intros Hc Hd Hr Hf Hown. unfold process_message. rewrite Hf.
  rewrite (get_session_state_warm self sid d s Hc Hd Hr), Hown.
  reflexivity.
Qed.

Lemma refused_caller_warms_cache_witness :
  sessions cold !! "s-1" = None
  ∧ ∃ self', process_message cold good_turn "u2" "s-1" "hello"
             = (Raise (HTTPException 403 "Access denied to this session"), self')
             ∧ sessions self' !! "s-1" = Some fresh.
Proof.
  split; [reflexivity|]. eexists. split.
  - apply (refused_caller_warms_cache cold good_turn "u2" "s-1" "hello" store0 fresh);
      reflexivity.
  - reflexivity.
Defined.

(** X8. Once [get_session_state] has handed out a session, asking again
    gives the same session from the cache and changes nothing, whether or
    not the store is reachable. *)
Theorem get_session_state_settles (self self1 : Moderator) (fault fault' : bool)
    (sid : string) (s : SessionState) :
  get_session_state self fault sid = (Some s, self1) →
  get_session_state self1 fault' sid = (Some s, self1).
Proof.
  intros H. destruct (get_session_state_found _ _ _ _ _ H) as (_ & Hin & _).
  by apply get_session_state_hit.
Qed.

Lemma get_session_state_settles_witness :
  ∃ self1, get_session_state cold false "s-1" = (Some fresh, self1)
           ∧ get_session_state self1 true "s-1" = (Some fresh, self1).
Proof.
  eexists. split; [reflexivity|].
  apply (get_session_state_settles cold _ false true "s-1" fresh). reflexivity.
Defined.

End TurnFacts.

(** ** The moderator: the completion block *)

Section CompletionBlockFacts.
Import Assessment Samples MoreSamples.
Local Open Scope Z_scope.

Ltac run_block :=
  unfold store_and_persist, call_get_results, record_results, persist_results,
    store_module_results;
  unfold bind, ret.

Lemma try_block_frame m fault sid name w r w' :
  store_and_persist m fault sid name w = (r, w') →
  (∀ k, k ≠ name → module_results (state w') !! k = module_results (state w) !! k)
  ∧ (truthy_payload (module_results (state w) !! name) = true →
     truthy_payload (module_results (state w') !! name) = true)
  ∧ module_history (state w') = module_history (state w)
  ∧ current_module (state w') = current_module (state w)
  ∧ patient_id (state w') = patient_id (state w)
  ∧ version (state w') = version (state w)
  ∧ is_complete (state w') = is_complete (state w)
  ∧ (∀ e, r = Raise e → durable w' = durable w).
Proof.
  run_block. destruct (has_get_results m); [|by intros [= <- <-]].
  destruct (get_results m) as [[p|]|e]; cbn beta iota;
    [|by intros [= <- <-]..].
  destruct (truthy_payload (Some p)) eqn:Hp; [|by intros [= <- <-]].
  rewrite existing_results. cbn.
  assert (∀ k, k ≠ name →
            <[name := p]> (module_results (state w)) !! k
            = module_results (state w) !! k) as Hk
    by (intros k Hne; by apply lookup_insert_ne).
  assert (truthy_payload (<[name := p]> (module_results (state w)) !! name) = true)
    as Hn by (by rewrite lookup_insert_eq).
  destruct (durable w) as [d|]; [destruct fault|];
    intros [= <- <-]; cbn; repeat split; auto; discriminate.
Qed.

(** X9. The [try] block of the completion handling touches one thing in
    the session object: the entry of the completing module in
    [module_results].  Other entries, the history, the current module, the
    owner, the version and the completion flag stay as they are, an entry
    that was non-empty is still non-empty afterwards, and when the block
    raises the store is as before. *)
Theorem try_block_touches_only_own_result (m : ModuleReport) (fault : bool)
    (sid name : string) (w w' : World) (r : outcome unit) :
  store_and_persist m fault sid name w = (r, w') →
  (∀ k, k ≠ name → module_results (state w') !! k = module_results (state w) !! k)
  ∧ (truthy_payload (module_results (state w) !! name) = true →
     truthy_payload (module_results (state w') !! name) = true)
  ∧ module_history (state w') = module_history (state w)
  ∧ current_module (state w') = current_module (state w)
  ∧ patient_id (state w') = patient_id (state w)
  ∧ version (state w') = version (state w)
  ∧ is_complete (state w') = is_complete (state w)
  ∧ (∀ e, r = Raise e → durable w' = durable w).
Proof.
  run_block. destruct (has_get_results m); [|by intros [= <- <-]].
  destruct (get_results m) as [[p|]|e]; cbn beta iota;
    [|by intros [= <- <-]..].
  destruct (truthy_payload (Some p)) eqn:Hp; [|by intros [= <- <-]].
  rewrite existing_results. cbn.
  destruct (durable w) as [d|]; [destruct fault|];
    intros [= <- <-]; cbn;
    (split; [intros k Hk; by apply lookup_insert_ne|]);
    (split; [intros _; by rewrite lookup_insert_eq|]);
    repeat split; auto; discriminate.
Qed.

Lemma try_block_touches_only_own_result_witness :
  ∃ w', store_and_persist completes true "s-1" "phq9" world0
        = (Raise (StoreError "store_module_results"), w')
        ∧ module_history (state w') = []
        ∧ durable w' = durable world0
        ∧ module_results (state w') !! "gad7" = None.
Proof.
  destruct (store_and_persist completes true "s-1" "phq9" world0) as [r w'] eqn:H.
  destruct (try_block_touches_only_own_result _ _ _ _ _ _ _ H)
    as (Hk & _ & Hh & _ & _ & _ & _ & Hd).
  exists w'. split; [vm_compute in H; by injection H as <- <-|].
  split; [exact Hh|]. split.
  - apply (Hd (StoreError "store_module_results")).
    vm_compute in H. by injection H as <- _.
  - rewrite (Hk "gad7"); [reflexivity|discriminate].
Defined.

(** X10. A turn whose write was refused can be repeated: when the module
    hands out the same result again and the store accepts it, the
    completion handling ends in exactly the state, and with exactly the
    answer, of a completion that succeeded at once. *)
Theorem retry_after_refused_write (m : ModuleReport) (sid name : string)
    (w : World) (r : Payload) :
  has_get_results m = true →
  get_results m = Ok (Some r) →
  r ≠ ∅ →
  is_Some (durable w) →
  ∃ w1,
    on_module_complete m true sid name w
    = (Ok (Some "Error saving module results. Please try again."), w1)
    ∧ on_module_complete m false sid name w1
      = on_module_complete m false sid name w.
Proof.
  intros Hh Hr Hne [d Hd].
  pose proof (store_and_persist_results m true sid name w r Hh Hr Hne) as H1.
  unfold persist_results, store_module_results in H1. cbn in H1.
  rewrite Hd in H1.
  eexists. split; [exact (on_module_complete_returns_early _ _ _ _ _ _ _ H1)|].
  pose proof (store_and_persist_results m false sid name w r Hh Hr Hne) as H2.
  pose proof (store_and_persist_results m false sid name
                {| state := set_module_results
                              (<[name := r]> (module_results (state w))) (state w);
                   durable := durable w |} r Hh Hr Hne) as H3.
  cbn in H3. rewrite insert_insert_eq in H3.
  unfold persist_results, store_module_results in H2, H3. cbn in H2, H3.
  rewrite Hd in H2, H3.
  rewrite (on_module_complete_marks _ _ _ _ _ _ H2).
  rewrite (on_module_complete_marks _ _ _ _ _ _ H3).
  reflexivity.
Qed.

Lemma retry_after_refused_write_witness :
  ∃ w1,
    on_module_complete completes true "s-1" "phq9" world0
    = (Ok (Some "Error saving module results. Please try again."), w1)
    ∧ on_module_complete completes false "s-1" "phq9" w1
      = on_module_complete completes false "s-1" "phq9" world0.
Proof.
  apply (retry_after_refused_write completes "s-1" "phq9" world0 phq9_result).
  - reflexivity.
  - reflexivity.
  - discriminate.
  - eexists; reflexivity.
Defined.

Lemma _should_run_da_frame diagnostic_modules s1 s2 name :
  module_history s1 = module_history s2 →
  name ∉ module_history s1 →
  (∀ k, k ≠ name → module_results s1 !! k = module_results s2 !! k) →
  _should_run_da diagnostic_modules s1 = _should_run_da diagnostic_modules s2.
Proof.
  intros Hh Hn Hk. induction diagnostic_modules as [|x rest IH]; [done|].
  cbn [_should_run_da]. unfold in_history. rewrite <- Hh.
  case_bool_decide as Hx; cbn; [|done].
  rewrite (Hk x); [by rewrite IH|]. intros ->. done.
Qed.

(** X11. The result a refused write leaves in the session object cannot
    satisfy a prerequisite: when the completing module was not yet in the
    history and persisting its result fails, [_should_run_da] (for every
    list of required modules) and [_should_run_tpa] answer after the turn
    what they answered before. *)
Theorem refused_write_meets_no_prerequisite (m : ModuleReport) (fault : bool)
    (sid name : string) (w : World) (diagnostic_modules : list string) :
  name ∉ module_history (state w) →
  persistence_fails m fault (durable w) →
  ∃ w', on_module_complete m fault sid name w
        = (Ok (Some "Error saving module results. Please try again."), w')
        ∧ _should_run_da diagnostic_modules (state w')
          = _should_run_da diagnostic_modules (state w)
        ∧ _should_run_tpa (state w') = _should_run_tpa (state w).
Proof.
  intros Hn Hf.
  destruct (persistence_fails_raises m fault sid name w Hf) as (e & w' & Hs & _).
  destruct (try_block_frame _ _ _ _ _ _ _ Hs) as (Hk & _ & Hh & _).
  exists w'. split; [exact (on_module_complete_returns_early _ _ _ _ _ _ _ Hs)|].
  assert (∀ ds, _should_run_da ds (state w') = _should_run_da ds (state w)) as Hda.
  { intros ds. apply (_should_run_da_frame ds _ _ name); [exact Hh| |exact Hk].
    by rewrite Hh. }
  split; [apply Hda|].
  specialize (Hda ["da_diagnostic_analysis"]). cbn [_should_run_da] in Hda.
  unfold _should_run_tpa.
  destruct (in_history "da_diagnostic_analysis" (state w')),
    (in_history "da_diagnostic_analysis" (state w)),
    (truthy_payload (module_results (state w') !! "da_diagnostic_analysis")),
    (truthy_payload (module_results (state w) !! "da_diagnostic_analysis"));
    cbn in *; congruence.
Qed.

Lemma refused_write_meets_no_prerequisite_witness :
  ("phq9" ∉ module_history (state world0))
  ∧ ∃ w', on_module_complete completes true "s-1" "phq9" world0
          = (Ok (Some "Error saving module results. Please try again."), w')
          ∧ module_results (state w') !! "phq9" = Some phq9_result
          ∧ _should_run_da ["phq9"] (state w') = false.
Proof.
  assert ("phq9" ∉ module_history (state world0)) as Hn
    by (cbn; apply not_elem_of_nil).
  assert (persistence_fails completes true (durable world0)) as Hf.
  { split; [reflexivity|]. right. exists phq9_result.
    split; [reflexivity|]. split; [discriminate|]. split; [reflexivity|].
    eexists; reflexivity. }
  destruct (refused_write_meets_no_prerequisite completes true "s-1" "phq9"
              world0 ["phq9"] Hn Hf) as (w' & Ho & Hda & _).
  split; [exact Hn|]. exists w'. split; [exact Ho|].
  split; [|rewrite Hda; reflexivity].
  vm_compute in Ho. by injection Ho as <-.
Defined.

Lemma _should_run_da_app l1 l2 s :
  _should_run_da (l1 ++ l2) s = _should_run_da l1 s && _should_run_da l2 s.
Proof.
  induction l1 as [|x l1 IH]; [reflexivity|]. cbn [app _should_run_da].
  rewrite IH. by repeat destruct (negb _).
Qed.

Lemma _should_run_da_subset (a b : list string) s :
  a ⊆ b → _should_run_da b s = true → _should_run_da a s = true.
Proof.
  intros Hab. rewrite !_should_run_da_true. intros H m Hm. apply H, Hab, Hm.
Qed.

(** X12. [_should_run_da] depends on the required modules as a set: lists
    with the same members give the same answer, asking for more modules can
    only turn the answer to false, the answer for two lists put together is
    the conjunction of the two answers, and an empty list is always
    satisfied. *)
Theorem _should_run_da_by_members (l1 l2 : list string) (s : SessionState) :
  ((∀ m, m ∈ l1 ↔ m ∈ l2) → _should_run_da l1 s = _should_run_da l2 s)
  ∧ (l1 ⊆ l2 → _should_run_da l2 s = true → _should_run_da l1 s = true)
  ∧ (_should_run_da (l1 ++ l2) s = (_should_run_da l1 s && _should_run_da l2 s))
  ∧ _should_run_da [] s = true.
Proof.
  split; [|split; [apply _should_run_da_subset|split; [apply _should_run_da_app|reflexivity]]].
  intros Heq.
  assert (l1 ⊆ l2) as H12 by (intros m Hm; by apply Heq).
  assert (l2 ⊆ l1) as H21 by (intros m Hm; by apply Heq).
  destruct (_should_run_da l1 s) eqn:H1, (_should_run_da l2 s) eqn:H2;
    try reflexivity.
  - by rewrite (_should_run_da_subset l2 l1 s H21 H1) in H2.
  - by rewrite (_should_run_da_subset l1 l2 s H12 H2) in H1.
Qed.

Lemma _should_run_da_by_members_witness :
  _should_run_da ["phq9"; "da_diagnostic_analysis"; "phq9"] da_attempted
  = _should_run_da ["da_diagnostic_analysis"; "phq9"] da_attempted.
Proof.
  apply (proj1 (_should_run_da_by_members
                  ["phq9"; "da_diagnostic_analysis"; "phq9"]
                  ["da_diagnostic_analysis"; "phq9"] da_attempted)).
  intros m. rewrite !elem_of_cons. rewrite !elem_of_nil. tauto.
Defined.

End CompletionBlockFacts.

(** ** The patient identifier *)

Section PatientIdFacts.
Import PatientId MoreSamples.

Variable is_uuid : string → bool.
Variable patients : gmap string string.
Variable fault : bool.

Lemma lookup_by_email_fault email :
  lookup_by_email patients true email = lookup_by_email ∅ false email.
Proof. unfold lookup_by_email. by rewrite lookup_empty. Qed.

(** X13. Whatever [get_patient_id] returns is either a string that
    [uuid.UUID] accepts, or the identifier the patients table holds for a
    non-empty e-mail address; from the object format only the former.  A
    failing lookup is swallowed: the answer is the one an empty table
    gives. *)
Theorem get_patient_id_provenance (data : UserData) :
  (∀ x, get_patient_id is_uuid patients fault data = Some x →
     is_uuid x = true
     ∨ (fault = false ∧ ∃ e, e ≠ "" ∧ patients !! e = Some x))
  ∧ (∀ o x, data = ObjData o →
       get_patient_id is_uuid patients fault data = Some x →
       is_uuid x = true ∧ x = py_str (id o))
  ∧ get_patient_id is_uuid patients true data
    = get_patient_id is_uuid ∅ false data.
Proof.
  assert (∀ (e : option string) x,
            (if truthy e
             then match e with Some a => lookup_by_email patients fault a | None => None end
             else None) = Some x →
            fault = false ∧ ∃ a, a ≠ "" ∧ patients !! a = Some x) as Hmail.
  { intros [a|] x; cbn; [|discriminate].
    destruct (String.eqb_spec a "") as [->|Hne]; cbn; [discriminate|].
    unfold lookup_by_email. destruct fault; [discriminate|]. eauto. }
  assert (∀ (c : option string) x,
            (if truthy c
             then match c with
                  | Some c0 => if is_uuid c0 then Some c0 else None
                  | None => None
                  end
             else None) = Some x → is_uuid x = true) as Hval.
  { intros [c0|] x; cbn; [|discriminate].
    destruct (negb _); [|discriminate].
    destruct (is_uuid c0) eqn:Hu; [|discriminate]. by intros [= <-]. }
  split; [|split].
  - intros x. destruct data as [|d|o]; [discriminate| |].
    + unfold get_patient_id. cbv zeta.
      match goal with
      | |- match ?v with Some _ => _ | None => _ end = _ → _ =>
          destruct v as [c|] eqn:Hv
      end.
      * intros [= <-]. left. by apply Hval in Hv.
      * intros H. right. by apply Hmail in H.
    + cbn. destruct (has (id o)); [|discriminate].
      destruct (is_uuid (py_str (id o))) eqn:Hu; [|discriminate].
      intros [= <-]. by left.
  - intros o x -> . cbn. destruct (has (id o)); [|discriminate].
    destruct (is_uuid (py_str (id o))) eqn:Hu; [|discriminate].
    intros [= <-]. done.
  - destruct data as [|d|o]; cbn; [done| |done].
    repeat match goal with
           | |- context [lookup_by_email patients true ?e] =>
               rewrite (lookup_by_email_fault e)
           end.
    reflexivity.
Qed.

(** X14. In the dictionary format the user object shadows the dictionary's
    own entries: when the object has an [id] attribute the ["user_id"] entry
    is never read, even if the attribute is [None] or malformed, and when
    the object has an [email] attribute the ["email"] entry is never read. *)
Theorem user_object_shadows_entries (d : UserDict) (u : UserObj)
    (other_id other_email : option string) :
  user d = Some u →
  (has (id u) = true →
   get_patient_id is_uuid patients fault
     (DictData {| user := user d; user_id := other_id; dict_email := dict_email d |})
   = get_patient_id is_uuid patients fault (DictData d))
  ∧ (has (email u) = true →
     get_patient_id is_uuid patients fault
       (DictData {| user := user d; user_id := user_id d; dict_email := other_email |})
     = get_patient_id is_uuid patients fault (DictData d)).
Proof.
  intros Hu. split; intros Hh; cbn; rewrite Hu, Hh; reflexivity.
Qed.

End PatientIdFacts.

Section PatientIdWitnesses.
Import PatientId MoreSamples.

Lemma get_patient_id_provenance_witness :
  get_patient_id only_patient_uuid patients0 false (DictData email_token)
  = Some "legacy-17"
  ∧ (only_patient_uuid "legacy-17" = true
     ∨ (false = false ∧ ∃ e, e ≠ "" ∧ patients0 !! e = Some "legacy-17")).
Proof.
  split; [reflexivity|].
  apply (proj1 (get_patient_id_provenance only_patient_uuid patients0 false
                  (DictData email_token)) "legacy-17").
  reflexivity.
Defined.

Lemma user_object_shadows_entries_witness :
  get_patient_id only_patient_uuid patients0 false (DictData stale_token) = None
  ∧ get_patient_id only_patient_uuid patients0 false
      (DictData {| user := user stale_token; user_id := None;
                   dict_email := dict_email stale_token |})
    = get_patient_id only_patient_uuid patients0 false (DictData stale_token).
Proof.
  split; [reflexivity|].
  apply (proj1 (user_object_shadows_entries only_patient_uuid patients0 false
                  stale_token _ None None eq_refl)).
  reflexivity.
Defined.

End PatientIdWitnesses.

(** ** The API hook: state after a call, and the calls that do not know 404 *)

Section ApiCallFacts.
Import AssessmentAPI ApiCalls Samples MoreSamples.

Lemma js_or_truthy_r a b : truthy b = true → truthy (js_or a b) = true.
Proof. intros H. unfold js_or. by destruct (truthy a) eqn:Ha. Qed.

Lemma handleError_records {A} err st :
  fst (@handleError A err st) = Throw err
  ∧ truthy (error (snd (@handleError A err st))) = true
  ∧ isLoading (snd (@handleError A err st)) = isLoading st.
Proof.
  unfold handleError. cbn. split; [done|]. split; [|done].
  by apply js_or_truthy_r.
Qed.

(** X15. However [deleteSession] ends, the loading flag is off afterwards
    and the hook's state does not depend on what it was before the call: a
    returned value (the response body or the 404 stand-in) leaves no error
    recorded, and a thrown error leaves a truthy message recorded, so a
    failure is never shown as an empty message. *)
Theorem deleteSession_final_state (post : PostOutcome) (sessionId : JsValue)
    (st : HookState) :
  isLoading (snd (deleteSession post sessionId st)) = false
  ∧ (∀ st', deleteSession post sessionId st' = deleteSession post sessionId st)
  ∧ (∀ v, fst (deleteSession post sessionId st) = Return v →
          error (snd (deleteSession post sessionId st)) = JNull)
  ∧ (∀ e, fst (deleteSession post sessionId st) = Throw e →
          truthy (error (snd (deleteSession post sessionId st))) = true).
Proof.
  unfold deleteSession. destruct post as [r|err]; cbn.
  - split; [done|]. split; [done|]. split; [done|]. intros e H; discriminate H.
  - case_bool_decide; cbn.
    + split; [done|]. split; [done|]. split; [done|].
      intros e He; discriminate He.
    + split; [done|]. split; [done|]. split; [intros v Hv; discriminate Hv|].
      intros _ _. by apply js_or_truthy_r.
Qed.

Lemma deleteSession_final_state_witness :
  fst (deleteSession (Rejected server_down) (JStr "s-1") idle) = Throw server_down
  ∧ truthy (error (snd (deleteSession (Rejected server_down) (JStr "s-1") idle))) = true.
Proof.
  split; [reflexivity|].
  apply (proj2 (proj2 (proj2 (deleteSession_final_state (Rejected server_down)
                                (JStr "s-1") idle))) server_down).
  reflexivity.
Defined.

(** X16. The other calls of the hook that return [response.data] do not
    treat 404 apart: each of them throws every rejection again, 404
    included.  [deleteSession] behaves like them on a resolved request and
    on every rejection whose status is not 404, and differs on 404 only. *)
Theorem plain_calls_rethrow_404 (sessionId : JsValue) (st : HookState) :
  Forall (λ call, ∀ err, fst (call (Rejected err) st) = Throw err)
    [saveSession; saveInitialInfo; getResults; getAssessmentResult; getHistory;
     getAnalytics; getComprehensiveReport; getAssessmentData; switchModule;
     getModules]
  ∧ (∀ r, deleteSession (Resolved r) sessionId st = getResults (Resolved r) st)
  ∧ (∀ err, response_status err ≠ Some 404%Z →
       deleteSession (Rejected err) sessionId st = getResults (Rejected err) st)
  ∧ (∀ err, response_status err = Some 404%Z →
       fst (deleteSession (Rejected err) sessionId st)
       ≠ fst (getResults (Rejected err) st)).
Proof.
  split; [repeat constructor|].
  split; [reflexivity|]. split.
  - intros err H. unfold deleteSession, getResults, request_data.
    by rewrite bool_decide_eq_false_2.
  - intros err H. unfold deleteSession, getResults, request_data.
    rewrite bool_decide_eq_true_2 by exact H. cbn. discriminate.
Qed.

Lemma plain_calls_rethrow_404_witness :
  fst (getResults (Rejected gone) idle) = Throw gone
  ∧ fst (deleteSession (Rejected gone) (JStr "s-1") idle)
    ≠ fst (getResults (Rejected gone) idle)
  ∧ deleteSession (Rejected server_down) (JStr "s-1") idle
    = getResults (Rejected server_down) idle.
Proof.
  pose proof (plain_calls_rethrow_404 (JStr "s-1") idle) as (_ & _ & Hne & H404).
  split; [reflexivity|]. split.
  - apply H404. reflexivity.
  - apply Hne. discriminate.
Defined.

(** X17. [normalizePagination] lets the server's flags win.  Without them,
    [hasPrevious] is computed from the page the result reports (1 when the
    payload has none), whereas [hasNext] compares the payload's raw [page]
    and [total_pages]: it is their comparison when both are numbers, and
    false whenever the payload has no [page] or no snake-case
    [total_pages], whatever page count the result reports. *)
Theorem normalizePagination_flags (payload : PagePayload) :
  (∀ b, has_next payload = Val b → pg_hasNext (normalizePagination payload) = b)
  ∧ (∀ b, has_previous payload = Val b →
          pg_hasPrevious (normalizePagination payload) = b)
  ∧ (nullish (has_previous payload) = true →
     pg_hasPrevious (normalizePagination payload)
     = (1 <? pg_page (normalizePagination payload))%Z)
  ∧ (nullish (has_next payload) = true →
     (∀ p t, page payload = Val p → total_pages payload = Val t →
             pg_hasNext (normalizePagination payload) = (p <? t)%Z)
     ∧ (page payload = Undefined ∨ total_pages payload = Undefined →
        pg_hasNext (normalizePagination payload) = false)).
Proof.
  unfold normalizePagination, js_lt. cbn.
  split; [by intros b ->|]. split; [by intros b ->|]. split.
  - intros H. by destruct (has_previous payload).
  - intros H. destruct (has_next payload); try done; cbn.
    + split; [by intros p t -> ->|].
      intros [->| ->]; [done|]. by destruct (to_number (page payload)).
    + split; [by intros p t -> ->|].
      intros [->| ->]; [done|]. by destruct (to_number (page payload)).
Qed.

Lemma normalizePagination_flags_witness :
  pg_page (normalizePagination camel_listing) = 1%Z
  ∧ pg_totalPages (normalizePagination camel_listing) = 5%Z
  ∧ pg_hasNext (normalizePagination camel_listing) = false
  ∧ pg_hasNext (normalizePagination second_page) = true
  ∧ pg_hasPrevious (normalizePagination second_page) = true.
Proof.
  pose proof (normalizePagination_flags camel_listing) as (_ & _ & _ & Hc).
  pose proof (normalizePagination_flags second_page) as (_ & _ & Hp & Hn).
  split; [reflexivity|]. split; [reflexivity|]. split.
  - apply Hc; [reflexivity|]. left; reflexivity.
  - split.
    + apply (proj1 (Hn eq_refl) 2%Z 5%Z); reflexivity.
    + apply Hp; reflexivity.
Defined.

(** X18. [getSessions] makes no request and never fails: whatever page is
    asked for, it answers with no sessions on page 1 of 1, with neither a
    next nor a previous page, echoing the page size asked for (20 when it
    is missing or [null]); the loading flag is off and no error is recorded
    afterwards. *)
Theorem getSessions_is_empty_first_page (page pageSize : Nullable Z)
    (st : HookState) :
  fst (getSessions page pageSize st)
  = ([], {| pg_page := 1; pg_pageSize := or_else pageSize 20%Z;
            pg_totalPages := 1; pg_totalSessions := 0;
            pg_hasNext := false; pg_hasPrevious := false |})
  ∧ snd (getSessions page pageSize st) = {| isLoading := false; error := JNull |}.
Proof.
  unfold getSessions, normalizePagination. cbn.
  split; [|reflexivity]. by destruct pageSize.
Qed.

End ApiCallFacts.

(** ** The questionnaire flag and the hook that reads it *)

Section QuestionnaireHookFacts.
Import Questionnaire.

(** X19. The hook sends the user away exactly when it is enabled and the
    flag does not read as completed, and then to the route it was given.
    So after [markQuestionnaireCompleted] it never redirects, and after
    [resetQuestionnaireStatus] an enabled hook always does. *)
Theorem useQuestionnaireCheck_redirects (localStorage : gmap string string)
    (enabled : bool) (redirectTo : string) :
  (useQuestionnaireCheck localStorage enabled redirectTo
   = if enabled && negb (isQuestionnaireCompleted localStorage)
     then Some redirectTo else None)
  ∧ useQuestionnaireCheck (markQuestionnaireCompleted localStorage) enabled redirectTo
    = None
  ∧ useQuestionnaireCheck (resetQuestionnaireStatus localStorage) true redirectTo
    = Some redirectTo.
Proof.
  unfold useQuestionnaireCheck, isQuestionnaireCompleted.
  split; [by destruct enabled|]. split.
  - unfold markQuestionnaireCompleted, setItem, getItem.
    rewrite lookup_insert_eq. by destruct enabled.
  - unfold resetQuestionnaireStatus, removeItem, getItem.
    by rewrite lookup_delete_eq.
Qed.

(** X20. Marking and resetting touch the key 'questionnaire_completed'
    and no other entry of localStorage.  Marking twice is marking once, a
    reset undoes a mark, and on a storage that never held the key the pair
    restores the storage exactly. *)
Theorem questionnaire_flag_frame (localStorage : gmap string string) :
  (∀ key, key ≠ "questionnaire_completed" →
     getItem (markQuestionnaireCompleted localStorage) key = getItem localStorage key
     ∧ getItem (resetQuestionnaireStatus localStorage) key = getItem localStorage key)
  ∧ markQuestionnaireCompleted (markQuestionnaireCompleted localStorage)
    = markQuestionnaireCompleted localStorage
  ∧ resetQuestionnaireStatus (markQuestionnaireCompleted localStorage)
    = resetQuestionnaireStatus localStorage
  ∧ (getItem localStorage "questionnaire_completed" = None →
     resetQuestionnaireStatus (markQuestionnaireCompleted localStorage) = localStorage).
Proof.
  unfold markQuestionnaireCompleted, resetQuestionnaireStatus, setItem,
    removeItem, getItem.
  split; [|split; [|split]].
  - intros key Hk. split; [by apply lookup_insert_ne|by apply lookup_delete_ne].
  - apply insert_insert_eq.
  - apply delete_insert_eq.
  - intros H. rewrite delete_insert_eq. by apply delete_id.
Qed.

Lemma questionnaire_flag_frame_witness :
  getItem (markQuestionnaireCompleted {[ "darkMode" := "true" ]}) "darkMode"
  = Some "true"
  ∧ resetQuestionnaireStatus (markQuestionnaireCompleted {[ "darkMode" := "true" ]})
    = {[ "darkMode" := "true" ]}.
Proof.
  pose proof (questionnaire_flag_frame {[ "darkMode" := "true" ]}) as (Hk & _ & _ & Hr).
  split.
  - rewrite (proj1 (Hk "darkMode" ltac:(discriminate))). reflexivity.
  - apply Hr. reflexivity.
Defined.

End QuestionnaireHookFacts.

(** ** The initial-information form *)

Section WizardFacts.
Import AssessmentAPI Wizard.
Local Open Scope Z_scope.

Variable DASHBOARD : string.

Lemma require_true key text (m : gmap string JsValue) :
  require true key text m ≠ ∅.
Proof. apply insert_non_empty. Qed.

Lemma validateStep_passes step st :
  fst (validateStep step st) = true ↔ step_errors step st = ∅.
Proof.
  unfold validateStep. cbn. rewrite bool_decide_eq_true.
  apply map_size_empty_iff.
Qed.

Lemma step_errors_1 st : step_errors 1 st = ∅ ↔ step1_filled st.
Proof.
  unfold step_errors, step1_filled.
  destruct (blank (field st "age")), (blank (field st "city")),
    (blank (field st "country")); cbn [require];
    split; try done; try (intros H; by apply insert_non_empty in H);
    intros (? & ? & ?); discriminate.
Qed.

Lemma step_errors_2 st : step_errors 2 st = ∅ ↔ step2_filled st.
Proof.
  unfold step_errors, step2_filled.
  destruct (empty (field st "marital_status")), (blank (field st "occupation")),
    (blank (field st "education")), (empty (field st "employment_status"));
    cbn [require];
    split; try done; try (intros H; by apply insert_non_empty in H);
    intros (? & ? & ? & ?); discriminate.
Qed.

Lemma step_errors_later step st :
  step ≠ 1 → step ≠ 2 → step_errors step st = ∅.
Proof.
  intros H1 H2. unfold step_errors.
  destruct step as [|[p|p|]|]; try done. destruct p; done.
Qed.

Lemma step1_filled_fields st st' :
  (∀ k, k ∈ ["age"; "city"; "country"] → field st' k = field st k) →
  step1_filled st → step1_filled st'.
Proof.
  intros H. unfold step1_filled.
  rewrite !H by (repeat ((by left) || right)). done.
Qed.

Lemma step2_filled_fields st st' :
  (∀ k, k ∈ ["marital_status"; "occupation"; "education"; "employment_status"] →
        field st' k = field st k) →
  step2_filled st → step2_filled st'.
Proof.
  intros H. unfold step2_filled.
  rewrite !H by (repeat ((by left) || right)). done.
Qed.

Lemma validateStep_keeps step st :
  formData (snd (validateStep step st)) = formData st
  ∧ currentStep (snd (validateStep step st)) = currentStep st
  ∧ isSubmitting (snd (validateStep step st)) = isSubmitting st
  ∧ redirectPath (snd (validateStep step st)) = redirectPath st.
Proof. done. Qed.

Lemma handleInputChange_field name value st k :
  field (handleInputChange name value st) k
  = if decide (name = k) then value else field st k.
Proof.
  unfold handleInputChange, field.
  destruct (truthy _); cbn; case_decide as Hk.
  - subst. by rewrite lookup_insert_eq.
  - by rewrite lookup_insert_ne.
  - subst. by rewrite lookup_insert_eq.
  - by rewrite lookup_insert_ne.
Qed.

Lemma handleInputChange_step name value st :
  currentStep (handleInputChange name value st) = currentStep st.
Proof. unfold handleInputChange. by destruct (truthy _). Qed.

Lemma handleSubmit_keeps post p :
  formData (form (snd (handleSubmit DASHBOARD post p))) = formData (form p)
  ∧ currentStep (form (snd (handleSubmit DASHBOARD post p))) = currentStep (form p).
Proof.
  unfold handleSubmit, validateStep. cbn.
  destruct (bool_decide _); cbn; [|done].
  destruct post as [m|err]; cbn.
  - by destruct (0 <? _).
  - unfold on_submit_error. destruct (response err) as [r|]; [|done].
    by destruct (data r).
Qed.

Lemma filled_same_form st st' :
  formData st' = formData st →
  (step1_filled st → step1_filled st') ∧ (step2_filled st → step2_filled st').
Proof.
  intros H. split; [apply step1_filled_fields|apply step2_filled_fields];
    intros k _; unfold field; by rewrite H.
Qed.

Lemma react_validated p ev :
  validated_so_far (form p) → validated_so_far (form (react DASHBOARD p ev)).
Proof.
  intros (Hr & H1 & H2). unfold react.
  destruct (enabled (form p) ev) eqn:Hen; [|done].
  destruct ev as [name value| | |post]; cbn in Hen; cbv beta iota;
    unfold with_form; cbn [form].
  - (* typing into a field of the current step *)
    unfold validated_so_far. rewrite handleInputChange_step.
    split; [exact Hr|]. split.
    + intros Hs. apply (step1_filled_fields (form p)); [|by apply H1].
      intros k Hk. rewrite handleInputChange_field.
      case_decide as Hn; [|done]. subst k. exfalso.
      assert (currentStep (form p) = 2 ∨ currentStep (form p) = 3
              ∨ currentStep (form p) = 4) as [Hc|[Hc|Hc]] by lia;
        rewrite Hc in Hen; cbn in Hen; [| |done];
        apply bool_decide_eq_true in Hen;
        repeat (apply elem_of_cons in Hk as [->|Hk];
                [repeat (apply elem_of_cons in Hen as [Hen|Hen];
                         [discriminate Hen|]);
                 by apply elem_of_nil in Hen|]);
        by apply elem_of_nil in Hk.
    + intros Hs. apply (step2_filled_fields (form p)); [|by apply H2].
      intros k Hk. rewrite handleInputChange_field.
      case_decide as Hn; [|done]. subst k. exfalso.
      assert (currentStep (form p) = 3 ∨ currentStep (form p) = 4)
        as [Hc|Hc] by lia;
        rewrite Hc in Hen; cbn in Hen; [|done];
        apply bool_decide_eq_true in Hen;
        repeat (apply elem_of_cons in Hk as [->|Hk];
                [repeat (apply elem_of_cons in Hen as [Hen|Hen];
                         [discriminate Hen|]);
                 by apply elem_of_nil in Hen|]);
        by apply elem_of_nil in Hk.
  - (* Previous *)
    apply negb_true_iff, Z.eqb_neq in Hen.
    unfold validated_so_far, handlePrevious. cbn.
    split; [lia|]. split; intros Hs.
    + apply (filled_same_form (form p)); [done|]. apply H1. lia.
    + apply (filled_same_form (form p)); [done|]. apply H2. lia.
  - (* Next *)
    apply Z.ltb_lt in Hen. unfold handleNext, validateStep.
    destruct (bool_decide (size (step_errors (currentStep (form p)) (form p)) = 0%nat))
      eqn:Hok; unfold validated_so_far; cbn.
    + apply bool_decide_eq_true, map_size_empty_iff in Hok.
      split; [lia|]. split; intros Hs.
      * apply (filled_same_form (form p)); [done|].
        destruct (decide (currentStep (form p) = 1)) as [Hc|Hc].
        -- rewrite Hc in Hok. by apply step_errors_1.
        -- apply H1. lia.
      * apply (filled_same_form (form p)); [done|].
        destruct (decide (currentStep (form p) = 2)) as [Hc|Hc].
        -- rewrite Hc in Hok. by apply step_errors_2.
        -- apply H2. lia.
    + split; [lia|]. split; intros Hs.
      * apply (filled_same_form (form p)); [done|]. by apply H1.
      * apply (filled_same_form (form p)); [done|]. by apply H2.
  - (* Submit *)
    destruct (handleSubmit_keeps post p) as [Hfd Hcs].
    unfold validated_so_far. rewrite Hcs.
    split; [exact Hr|]. split; intros Hs.
    + apply (filled_same_form (form p)); [done|]. by apply H1.
    + apply (filled_same_form (form p)); [done|]. by apply H2.
Qed.

Lemma run_validated events : ∀ p,
  validated_so_far (form p) → validated_so_far (form (run DASHBOARD p events)).
Proof.
  induction events as [|ev rest IH]; intros p Hp; [exact Hp|].
  cbn. apply IH. by apply react_validated.
Qed.

(** X21. From a page on step 1, whatever its fields are prefilled with and
    whatever the user then does, the step stays one of the four and every
    step before the current one has its required fields filled.  So
    whenever the submit button is live, all seven required fields are
    filled and the request is sent. *)
Theorem wizard_only_submits_filled_forms (p : Page) (events : list Event) :
  currentStep (form p) = 1 →
  validated_so_far (form (run DASHBOARD p events))
  ∧ ∀ post, enabled (form (run DASHBOARD p events)) (Submit post) = true →
            step1_filled (form (run DASHBOARD p events))
            ∧ step2_filled (form (run DASHBOARD p events))
            ∧ fst (validateStep (currentStep (form (run DASHBOARD p events)))
                     (form (run DASHBOARD p events))) = true.
Proof.
  intros Hs.
  assert (validated_so_far (form (run DASHBOARD p events))) as Hinv.
  { apply run_validated. unfold validated_so_far. rewrite Hs.
    split; [lia|]. split; intros; lia. }
  split; [exact Hinv|]. intros post Hen. cbn in Hen.
  apply andb_true_iff in Hen as [Hen _].
  apply negb_true_iff, Z.ltb_ge in Hen.
  destruct Hinv as (Hr & H1 & H2).
  split; [apply H1; lia|]. split; [apply H2; lia|].
  apply validateStep_passes, step_errors_later; lia.
Qed.

(** X22. [handleSubmit] sets the questionnaire flag exactly when the step
    validates, the POST resolves and the answer lists no missing field;
    then, and only then, it sends the router on (to the redirect path, or to
    the dashboard when that is empty).  It never clears a flag that is set,
    never changes another localStorage entry, the form data or the step, and
    once past validation it leaves the submitting flag off, however the
    request ended. *)
Theorem handleSubmit_marks_on_success_only (post : SubmitOutcome) (p : Page) :
  let valid := fst (validateStep (currentStep (form p)) (form p)) in
  let p' := snd (handleSubmit DASHBOARD post p) in
  storage p'
  = (if valid && accepted post
     then Questionnaire.markQuestionnaireCompleted (storage p) else storage p)
  ∧ navigated p'
    = (if valid && accepted post
       then Some (if empty (redirectPath (form p)) then DASHBOARD
                  else redirectPath (form p))
       else navigated p)
  ∧ (Questionnaire.isQuestionnaireCompleted (storage p') = true
     ↔ Questionnaire.isQuestionnaireCompleted (storage p) = true
       ∨ (valid = true ∧ accepted post = true))
  ∧ formData (form p') = formData (form p)
  ∧ currentStep (form p') = currentStep (form p)
  ∧ (valid = true → isSubmitting (form p') = false).
Proof.
  cbv zeta.
  assert (storage (snd (handleSubmit DASHBOARD post p))
          = (if fst (validateStep (currentStep (form p)) (form p)) && accepted post
             then Questionnaire.markQuestionnaireCompleted (storage p)
             else storage p)
          ∧ navigated (snd (handleSubmit DASHBOARD post p))
            = (if fst (validateStep (currentStep (form p)) (form p)) && accepted post
               then Some (if empty (redirectPath (form p)) then DASHBOARD
                          else redirectPath (form p))
               else navigated p)
          ∧ (fst (validateStep (currentStep (form p)) (form p)) = true →
             isSubmitting (form (snd (handleSubmit DASHBOARD post p))) = false))
    as (Hst & Hnav & Hsub).
  { unfold handleSubmit, validateStep, accepted. cbn.
    destruct (bool_decide _); cbn; [|done].
    destruct post as [m|err]; cbn.
    - by destruct (0 <? _).
    - unfold on_submit_error. destruct (response err) as [r|]; [|done].
      by destruct (data r). }
  destruct (handleSubmit_keeps post p) as [Hfd Hcs].
  split; [exact Hst|]. split; [exact Hnav|].
  split; [|split; [exact Hfd|split; [exact Hcs|exact Hsub]]].
  rewrite Hst.
  destruct (fst (validateStep (currentStep (form p)) (form p)) && accepted post)
    eqn:Hok.
  - apply andb_true_iff in Hok. split; [auto|]. intros _.
    apply isQuestionnaireCompleted_spec.
    unfold Questionnaire.markQuestionnaireCompleted, Questionnaire.setItem.
    apply lookup_insert_eq.
  - split; [auto|]. intros [H|[Hv Ha]]; [exact H|].
    rewrite Hv, Ha in Hok. discriminate Hok.
Qed.

(** X23. A failed submission is reported as a form error and an error
    toast carrying the same text - the server's [detail] when it is a
    string, and a fixed sentence when there was no response - with one
    exception: when the error response has no body, the handler itself
    throws a TypeError and neither a form error nor a toast appears.  In
    every case the flag in localStorage and the router are left alone. *)
Theorem failed_submission_report (err : AxiosError) (p : Page) :
  fst (validateStep (currentStep (form p)) (form p)) = true →
  let p' := snd (handleSubmit DASHBOARD (Failed err) p) in
  storage p' = storage p
  ∧ navigated p' = navigated p
  ∧ match response err with
    | None =>
        fst (handleSubmit DASHBOARD (Failed err) p) = Returned
        ∧ errors (form p')
          = {[ "form" := JStr "Network error. Please check your connection and try again." ]}
        ∧ toasts p'
          = (toasts p ++
             [(false, JStr "Network error. Please check your connection and try again.")])%list
    | Some r =>
        match data r with
        | JUndefined | JNull =>
            fst (handleSubmit DASHBOARD (Failed err) p) = TypeError
            ∧ errors (form p') = ∅
            ∧ toasts p' = toasts p
        | body =>
            fst (handleSubmit DASHBOARD (Failed err) p) = Returned
            ∧ ∃ text, errors (form p') = {[ "form" := text ]}
                      ∧ toasts p' = (toasts p ++ [(false, text)])%list
                      ∧ (∀ s, opt_field body "detail" = JStr s → text = JStr s)
        end
    end.
Proof.
  intros Hv. cbv zeta. unfold handleSubmit.
  destruct (validateStep (currentStep (form p)) (form p)) as [ok st] eqn:Hvs.
  cbn in Hv. subst ok. cbn. unfold on_submit_error. cbn.
  destruct (response err) as [r|]; [|done].
  destruct (data r) as [| |b|n|s|fields] eqn:Hd; cbn; try done;
    (split; [done|]; split; [done|]; split; [done|]);
    try (eexists; split; [reflexivity|]; split; [reflexivity|];
         intros s0 Hs0; discriminate Hs0).
  destruct (assoc fields "detail") eqn:Ha;
    eexists; (split; [reflexivity|]); (split; [reflexivity|]);
    intros s0 Hs0; try discriminate Hs0; done.
Qed.

End WizardFacts.

Section WizardWitnesses.
Import AssessmentAPI Wizard MoreSamples.
Local Open Scope Z_scope.

Lemma wizard_only_submits_filled_forms_witness :
  currentStep (form first_page) = 1
  ∧ currentStep (form (run "/dashboard" first_page impatient)) = 1
  ∧ navigated (run "/dashboard" first_page impatient) = None
  ∧ enabled (form last_step) (Submit (Saved None)) = true
  ∧ step1_filled (form last_step)
  ∧ step2_filled (form last_step).
Proof.
  split; [reflexivity|]. split; [vm_compute; reflexivity|].
  split; [vm_compute; reflexivity|]. split; [vm_compute; reflexivity|].
  pose proof (proj2 (wizard_only_submits_filled_forms "/dashboard" first_page
                       [Input "age" "34"; Input "city" "Lahore";
                        Input "country" "Pakistan"; Next;
                        Input "marital_status" "single"; Input "occupation" "nurse";
                        Input "education" "bachelor";
                        Input "employment_status" "employed"; Next; Next]
                       eq_refl) (Saved None)) as H.
  destruct H as (H1 & H2 & _); [vm_compute; reflexivity|].
  split; [exact H1|exact H2].
Defined.

Lemma handleSubmit_marks_on_success_only_witness :
  Questionnaire.isQuestionnaireCompleted
    (storage (snd (handleSubmit "/dashboard" (Saved (Some ["age"])) last_step)))
  = false
  ∧ Questionnaire.isQuestionnaireCompleted
      (storage (snd (handleSubmit "/dashboard" (Saved (Some [])) last_step)))
    = true
  ∧ navigated (snd (handleSubmit "/dashboard" (Saved (Some [])) last_step))
    = Some "/dashboard".
Proof.
  pose proof (handleSubmit_marks_on_success_only "/dashboard"
                (Saved (Some ["age"])) last_step) as (Hs1 & _).
  pose proof (handleSubmit_marks_on_success_only "/dashboard"
                (Saved (Some [])) last_step) as (_ & Hn2 & Hf2 & _).
  split; [rewrite Hs1; vm_compute; reflexivity|].
  split; [apply Hf2; right; split; vm_compute; reflexivity|].
  rewrite Hn2. vm_compute. reflexivity.
Defined.

Lemma failed_submission_report_witness :
  fst (handleSubmit "/dashboard" (Failed bodyless) last_step) = TypeError
  ∧ errors (form (snd (handleSubmit "/dashboard" (Failed bodyless) last_step))) = ∅
  ∧ toasts (snd (handleSubmit "/dashboard" (Failed bodyless) last_step)) = [].
Proof.
  assert (fst (validateStep (currentStep (form last_step)) (form last_step)) = true)
    as Hv by (vm_compute; reflexivity).
  pose proof (failed_submission_report "/dashboard" bodyless last_step Hv)
    as (_ & _ & H).
  change (response bodyless) with (Some {| status := 502; data := JUndefined |}) in H.
  cbv beta iota in H. change (data {| status := 502; data := JUndefined |})
    with JUndefined in H.
  cbv beta iota in H. destruct H as (H1 & H2 & H3).
  split; [exact H1|]. split; [exact H2|]. rewrite H3. vm_compute. reflexivity.
Defined.

End WizardWitnesses.
